(** * ca-biz-scraper: the extraction and navigation engine of [app/scraper.py]

    A shallow embedding of the scraper core.  Python values are modelled as
    follows.

    - [str] is [string], read as the UTF-8 encoding of the Python string;
      [str.strip] removes every character for which [isspace] holds, the
      Unicode ones included.
    - [Dict[str, str]] is an insertion-ordered association list whose keys
      are pairwise distinct; assignment [d[k] = v] overwrites in place or
      appends at the end, as CPython's dict does.
    - [int] is [Z].
    - A call into the browser-automation provider is a state transformer on
      an abstract world that either returns a value or raises; [try/except
      Exception] is [try_catch]. *)

From Stdlib Require Import List String Ascii ZArith Lia Bool Arith.
From Stdlib Require DecimalString DecimalNat OrderedTypeEx.
From Stdlib Require Import Sorted.
Import ListNotations.

Local Open Scope string_scope.
Local Open Scope list_scope.

(** ** Python strings *)

Module PyStr.

(** [c.isspace()] for the characters encoded in one byte: TAB, LF, VT,
    FF, CR, FS, GS, RS, US and the space. *)
Definition isspace (c : ascii) : bool :=
  let n := nat_of_ascii c in
  (((9 <=? n) && (n <=? 13)) || ((28 <=? n) && (n <=? 32)))%nat.

(** The whitespace characters encoded in two bytes: U+0085 (C2 85) and
    U+00A0 (C2 A0). *)
Definition isspace2 (c1 c2 : ascii) : bool :=
  let a := nat_of_ascii c1 in
  let b := nat_of_ascii c2 in
  ((a =? 194) && ((b =? 133) || (b =? 160)))%nat.

(** The whitespace characters encoded in three bytes: U+1680 (E1 9A 80),
    U+2000 to U+200A (E2 80 80 to E2 80 8A), U+2028 and U+2029
    (E2 80 A8, E2 80 A9), U+202F (E2 80 AF), U+205F (E2 81 9F) and U+3000
    (E3 80 80). *)
Definition isspace3 (c1 c2 c3 : ascii) : bool :=
  let a := nat_of_ascii c1 in
  let b := nat_of_ascii c2 in
  let c := nat_of_ascii c3 in
  (((a =? 225) && (b =? 154) && (c =? 128))
   || ((a =? 226) && (b =? 128)
       && (((128 <=? c) && (c <=? 138)) || (c =? 168) || (c =? 169)
           || (c =? 175)))
   || ((a =? 226) && (b =? 129) && (c =? 159))
   || ((a =? 227) && (b =? 128) && (c =? 128)))%nat.

Fixpoint lstrip_by (p : ascii -> bool) (s : list ascii) : list ascii :=
  match s with
  | [] => []
  | c :: s' => if p c then lstrip_by p s' else s
  end.

Definition rstrip_by (p : ascii -> bool) (s : list ascii) : list ascii :=
  List.rev (lstrip_by p (List.rev s)).

(** Removes from the front every character recognised by [p1] on one
    byte, [p2] on two bytes or [p3] on three bytes. *)
Fixpoint lstrip_seq (p1 : ascii -> bool) (p2 : ascii -> ascii -> bool)
    (p3 : ascii -> ascii -> ascii -> bool) (s : list ascii) : list ascii :=
  match s with
  | [] => []
  | c1 :: s1 =>
      if p1 c1 then lstrip_seq p1 p2 p3 s1
      else
        match s1 with
        | [] => s
        | c2 :: s2 =>
            if p2 c1 c2 then lstrip_seq p1 p2 p3 s2
            else
              match s2 with
              | [] => s
              | c3 :: s3 =>
                  if p3 c1 c2 c3 then lstrip_seq p1 p2 p3 s3 else s
              end
        end
  end.

(** Whether the list starts with a character that [lstrip_seq] removes. *)
Definition at_seq (p1 : ascii -> bool) (p2 : ascii -> ascii -> bool)
    (p3 : ascii -> ascii -> ascii -> bool) (s : list ascii) : bool :=
  match s with
  | [] => false
  | c1 :: s1 =>
      p1 c1
      || match s1 with
         | [] => false
         | c2 :: s2 =>
             p2 c1 c2
             || match s2 with
                | [] => false
                | c3 :: _ => p3 c1 c2 c3
                end
         end
  end.

(** [s.lstrip()] *)
Definition lstrip_space (s : list ascii) : list ascii :=
  lstrip_seq isspace isspace2 isspace3 s.

(** [s.rstrip()]: the same from the end, on the reversed bytes. *)
Definition rstrip_space (s : list ascii) : list ascii :=
  List.rev (lstrip_seq isspace (fun a b => isspace2 b a)
                       (fun a b c => isspace3 c b a) (List.rev s)).

(** [s.strip()] *)
Definition strip (s : string) : string :=
  string_of_list_ascii
    (rstrip_space (lstrip_space (list_ascii_of_string s))).

(** [s.rstrip(":")] *)
Definition rstrip_colon (s : string) : string :=
  string_of_list_ascii
    (rstrip_by (Ascii.eqb ":"%char) (list_ascii_of_string s)).

(** Truth value of a string: [bool(s)]. *)
Definition truthy (s : string) : bool :=
  match s with
  | EmptyString => false
  | String _ _ => true
  end.

(** [str(n)] for a natural number. *)
Definition of_nat (n : nat) : string :=
  DecimalString.NilEmpty.string_of_uint (Nat.to_uint n).

End PyStr.

(** ** Python dictionaries *)

Module PyDict.

Definition dict := list (string * string).

Definition keys (d : dict) : list string := map fst d.

Fixpoint get (d : dict) (k : string) : option string :=
  match d with
  | [] => None
  | (k', v) :: d' => if String.eqb k k' then Some v else get d' k
  end.

(** [d[k] = v] *)
Fixpoint set (k v : string) (d : dict) : dict :=
  match d with
  | [] => [(k, v)]
  | (k', v') :: d' =>
      if String.eqb k k' then (k', v) :: d' else (k', v') :: set k v d'
  end.

(** [d.update(e)]: the items of [e] are assigned in their order. *)
Definition update (d e : dict) : dict :=
  fold_left (fun acc kv => set (fst kv) (snd kv) acc) e d.

(** [{**b, **e}]: a fresh dictionary receiving the items of [b], then
    those of [e]. *)
Definition unpack2 (b e : dict) : dict := update (update [] b) e.

(** Truth value of a dictionary: [bool(d)]. *)
Definition truthy (d : dict) : bool :=
  match d with
  | [] => false
  | _ :: _ => true
  end.

(** The representation invariant: keys are pairwise distinct. *)
Definition wf (d : dict) : Prop := NoDup (keys d).

End PyDict.

Import PyDict.

(** ** Exceptions and the provider monad

    [exn] stands for the exceptions deriving from [Exception], the ones an
    [except Exception] clause catches. *)

Inductive exn : Type :=
| TimeoutError
| PlaywrightError
| RuntimeError (msg : string).

Inductive result (A : Type) : Type :=
| Ok (a : A)
| Raise (e : exn).

Arguments Ok {A} a.
Arguments Raise {A} e.

(** A computation over the browser world: it leaves a new world behind
    whether it returns or raises. *)
Definition M (W A : Type) : Type := W -> result A * W.

Definition ret {W A} (a : A) : M W A := fun w => (Ok a, w).

Definition bind {W A B} (m : M W A) (f : A -> M W B) : M W B :=
  fun w =>
    match m w with
    | (Ok a, w') => f a w'
    | (Raise e, w') => (Raise e, w')
    end.

Definition raise {W A} (e : exn) : M W A := fun w => (Raise e, w).

(** [try: m  except Exception: h] *)
Definition try_catch {W A} (m : M W A) (h : exn -> M W A) : M W A :=
  fun w =>
    match m w with
    | (Ok a, w') => (Ok a, w')
    | (Raise e, w') => h e w'
    end.

(** [try: m  finally: fin] *)
Definition try_finally {W A} (m : M W A) (fin : M W unit) : M W A :=
  fun w =>
    match m w with
    | (r, w') =>
        match fin w' with
        | (Ok _, w'') => (r, w'')
        | (Raise e, w'') => (Raise e, w'')
        end
    end.

Declare Scope py_scope.
Delimit Scope py_scope with py.
Notation "x <- m ;; k" := (bind m (fun x => k))
  (at level 61, m at next level, right associativity) : py_scope.
Notation "m ;; k" := (bind m (fun _ => k))
  (at level 61, right associativity) : py_scope.
Local Open Scope py_scope.

(** ** Locators *)

Inductive locator : Type :=
| Css (sel : string)                  (* page.locator(sel) *)
| ByRole (role : string) (name : option string)
                                      (* page.get_by_role(role, name=...) *)
| First (l : locator)                 (* l.first *)
| Nth (l : locator) (i : nat)         (* l.nth(i) *)
| Within (l : locator) (sel : string) (* l.locator(sel) *).

(** A handle on a page object, as [evaluate_handle] returns it.  Python
    treats every handle object as true, also one that wraps [null]. *)
Inductive js_handle : Type :=
| NextElementSibling (l : locator).

(** ** The browser-automation provider

    The capability surface the core consumes.  Building a locator is lazy
    and cannot fail; every call below can. *)

Class Provider (W : Type) : Type := {
  (* launch_browser up to the yield: launch, new_context, route *)
  launch_context : bool -> M W unit;
  close_context : M W unit;
  close_browser : M W unit;
  new_page : M W unit;
  set_default_timeout : Z -> M W unit;
  (* page.goto(url, wait_until="domcontentloaded") *)
  goto : string -> M W unit;
  (* page.go_back(wait_until="domcontentloaded") *)
  go_back : M W unit;
  (* page.wait_for_selector(sel, timeout=t) *)
  wait_for_selector : string -> Z -> M W unit;
  (* the wait performed when a [with page.expect_navigation(timeout=t)]
     block is left normally *)
  wait_navigation : Z -> M W unit;
  count : locator -> M W nat;
  inner_text : locator -> M W string;
  (* l.click(timeout=t) *)
  click : locator -> Z -> M W unit;
  fill : locator -> string -> M W unit;
  (* page.keyboard.press(key) *)
  press : string -> M W unit;
  (* l.evaluate_handle("e => e.nextElementSibling") *)
  evaluate_handle : locator -> M W js_handle;
  (* sib.evaluate("e => e.innerText"); [None] is a null or undefined text *)
  evaluate : js_handle -> M W (option string)
}.

(** ** Generic loops *)

Section Loops.
Context {W : Type}.

(** [for x in xs: s = body(x, s)], a loop without [break]. *)
Fixpoint for_each {A S : Type} (xs : list A) (body : A -> S -> M W S)
    (s : S) : M W S :=
  match xs with
  | [] => ret s
  | x :: xs' => s' <- body x s ;; for_each xs' body s'
  end.

(** [[f(x) for x in xs]] *)
Fixpoint map_m {A B : Type} (f : A -> M W B) (xs : list A) : M W (list B) :=
  match xs with
  | [] => ret []
  | x :: xs' => y <- f x ;; ys <- map_m f xs' ;; ret (y :: ys)
  end.

(** [time.sleep(t)] does not touch the browser. *)
Definition sleep : M W unit := ret tt.

End Loops.

(** [range(n)] *)
Definition range (n : nat) : list nat := seq 0 n.

(** ** The session state of the orchestrator *)

Record Session : Type := {
  results : list dict;
  fetched : Z;
  page_index : Z
}.

(** [results.append(d); fetched += 1] *)
Definition record_row (d : dict) (st : Session) : Session :=
  {| results := results st ++ [d];
     fetched := fetched st + 1;
     page_index := page_index st |}.

(** [page_index += 1] *)
Definition next_page (st : Session) : Session :=
  {| results := results st;
     fetched := fetched st;
     page_index := page_index st + 1 |}.

Definition initial_session : Session :=
  {| results := []; fetched := 0; page_index := 1 |}.

(** How the body of the row loop is left: on to the next row, or out of
    [scrape_businesses] through the [return] of the failed resync. *)
Inductive flow : Type :=
| Continue
| Return.

(** ** Base records (lines 250-255)

    [table_headers[i]] and [r[i]] are in range under the guard of the first
    branch, [r[i]] always is. *)

Definition header_keyed (table_headers r : list string) : dict :=
  fold_left (fun d i => set (nth i table_headers "") (nth i r "") d)
            (range (List.length r)) [].

Definition col_keyed (r : list string) : dict :=
  fold_left (fun d i =>
               set ("col_" ++ PyStr.of_nat (i + 1))%string (nth i r "") d)
            (range (List.length r)) [].

Definition base_record (table_headers r : list string) : dict :=
  if match table_headers with [] => false | _ => true end
     && (List.length r =? List.length table_headers)%nat
  then header_keyed table_headers r
  else col_keyed r.

(** ** The scraper over a provider *)

Section Scraper.
Context {W : Type} {P : Provider W}.

Definition SEARCH_URL : string :=
  "https://bizfileonline.sos.ca.gov/search/business".

(** *** Table Extractor *)

Definition _safe_text (el : locator) : M W string :=
  try_catch (t <- inner_text el ;; ret (PyStr.strip t)) (fun _ => ret "").

(** The [for sel in ...] loop of [_extract_table_headers]; [headers] is
    the function's variable of that name. *)
Fixpoint headers_loop (sels : list string) (headers : list string)
    : M W (list string) :=
  match sels with
  | [] => ret headers
  | sel :: sels' =>
      let ths := Css sel in
      n <- count ths ;;
      if (0 <? n)%nat then
        m <- count ths ;;
        headers' <- map_m (fun i => t <- inner_text (Nth ths i) ;;
                                    ret (PyStr.strip t)) (range m) ;;
        match headers' with
        | [] => headers_loop sels' headers'
        | _ :: _ => ret headers'
        end
      else headers_loop sels' headers
  end.

Definition _extract_table_headers : M W (list string) :=
  headers <- headers_loop
    ["table thead tr th"; "table tr th";
     "[role=table] thead [role=columnheader]"] [] ;;
  ret (filter PyStr.truthy headers).

(** Body of [for i in range(trs.count())] (lines 82-92). *)
Definition table_row_body (trs : locator) (i : nat)
    (rows : list (list string)) : M W (list (list string)) :=
  let tr := Nth trs i in
  n_th <- count (Within tr "th") ;;
  header_repeat <-
    (if (0 <? n_th)%nat
     then n_td <- count (Within tr "td") ;; ret (n_td =? 0)%nat
     else ret false) ;;
  if header_repeat then ret rows
  else
    n <- count (Within tr "td") ;;
    let cells :=
      if (n =? 0)%nat then Within tr "[role=cell]" else Within tr "td" in
    n' <- count cells ;;
    if (n' =? 0)%nat then ret rows
    else
      m <- count cells ;;
      row <- map_m (fun j => _safe_text (Nth cells j)) (range m) ;;
      if existsb (fun c => PyStr.truthy (PyStr.strip c)) row
      then ret (rows ++ [row])
      else ret rows.

(** The [for sel in ...] loop of [_extract_table_rows]. *)
Fixpoint rows_sel_loop (sels : list string) (rows : list (list string))
    : M W (list (list string)) :=
  match sels with
  | [] => ret rows
  | sel :: sels' =>
      let trs := Css sel in
      n <- count trs ;;
      if (n =? 0)%nat then rows_sel_loop sels' rows
      else
        m <- count trs ;;
        rows' <- for_each (range m) (table_row_body trs) rows ;;
        match rows' with
        | [] => rows_sel_loop sels' rows'
        | _ :: _ => ret rows'
        end
  end.

Definition row_selectors : list string :=
  ["table tbody tr"; "table tr"; "[role=rowgroup] [role=row]"].

Definition _extract_table_rows : M W (list (list string)) :=
  rows_sel_loop row_selectors [].

(** *** Navigation Controller *)

(** One fill attempt: [try: el.fill(term); filled = True  except: pass]. *)
Definition try_fill (el : locator) (term : string) (filled : bool)
    : M W bool :=
  try_catch (fill el term ;; ret true) (fun _ => ret filled).

(** The [for btn in ...] loop of [_click_search]; the result is
    [clicked]. *)
Fixpoint click_buttons (btns : list locator) : M W bool :=
  match btns with
  | [] => ret false
  | btn :: rest =>
      clicked <- try_catch (click btn 2000 ;; ret true)
                           (fun _ => ret false) ;;
      if clicked then ret true else click_buttons rest
  end.

Definition _click_search (term : string) : M W unit :=
  let filled := false in
  let inputs := Css "input[placeholder*='Search' i]" in
  n <- count inputs ;;
  filled <- (if (0 <? n)%nat then try_fill (First inputs) term filled
             else ret filled) ;;
  filled <- (if negb filled
             then try_fill (First (ByRole "textbox" None)) term filled
             else ret filled) ;;
  filled <- (if negb filled
             then try_fill (First (Css "input[type=text]")) term filled
             else ret filled) ;;
  clicked <- click_buttons
    [First (ByRole "button" (Some "search|find|submit"));
     First (Css "button:has-text('Search')");
     First (Css "input[type=submit]")] ;;
  if negb clicked
  then try_catch (press "Enter") (fun _ => ret tt)
  else ret tt.

(** The [for sel in ...] loop of [_open_row_detail]. *)
Fixpoint open_row_loop (sels : list string) (row_idx : nat) : M W bool :=
  match sels with
  | [] => ret false
  | sel :: sels' =>
      let rows := Css sel in
      n <- count rows ;;
      if (n =? 0)%nat then open_row_loop sels' row_idx
      else
        m <- count rows ;;
        if (m <=? row_idx)%nat then ret false
        else
          let row := Nth rows row_idx in
          let link := First (Within row "a") in
          try_catch
            (c <- count link ;;
             (if (0 <? c)%nat then click link 4000 else click row 4000) ;;
             ret true)
            (fun _ => ret false)
  end.

Definition _open_row_detail (row_idx : nat) : M W bool :=
  open_row_loop row_selectors row_idx.

(** The [for selector in ...] loop of [_click_next]; [true] is the
    [return True] inside the loop. *)
Fixpoint next_loop (selectors : list string) : M W bool :=
  match selectors with
  | [] => ret false
  | selector :: rest =>
      let el := Css selector in
      n <- count el ;;
      if (0 <? n)%nat then
        clicked <- try_catch (click (First el) 2000 ;; ret true)
                             (fun _ => ret false) ;;
        if clicked then ret true else next_loop rest
      else next_loop rest
  end.

Definition _click_next : M W bool :=
  clicked <- next_loop
    ["a[aria-label='Next']"; "button[aria-label='Next']";
     "a:has-text('Next')"; "button:has-text('Next')";
     "li.next a"; "[data-testid='pagination-next']"] ;;
  if clicked then ret true
  else
    (* get_by_role only builds a locator *)
    try_catch (press "PageDown") (fun _ => ret tt) ;;
    ret false.

(** *** Detail Collector *)

(** The guard of line 144; [and] and [>=] evaluate left to right. *)
Definition dt_dd_applicable (dts dds : locator) : M W bool :=
  n <- count dts ;;
  if (0 <? n)%nat
  then n_dd <- count dds ;; n_dt <- count dts ;; ret (n_dt <=? n_dd)%nat
  else ret false.

(** Body of the loop of lines 145-149. *)
Definition dt_dd_body (dts dds : locator) (i : nat) (data : dict)
    : M W dict :=
  t <- inner_text (Nth dts i) ;;
  let key := PyStr.rstrip_colon (PyStr.strip t) in
  u <- inner_text (Nth dds i) ;;
  let val := PyStr.strip u in
  if PyStr.truthy key then ret (set key val data) else ret data.

(** Body of the loop of lines 152-158. *)
Definition two_col_body (rows : locator) (i : nat) (data : dict)
    : M W dict :=
  let cells := Within (Nth rows i) "td,th" in
  c <- count cells ;;
  if (2 <=? c)%nat then
    t <- inner_text (Nth cells 0) ;;
    let k := PyStr.rstrip_colon (PyStr.strip t) in
    u <- inner_text (Nth cells 1) ;;
    let v := PyStr.strip u in
    if PyStr.truthy k && PyStr.truthy v then ret (set k v data)
    else ret data
  else ret data.

(** Body of the loop of lines 161-171, with its own [try]. *)
Definition label_body (labels : locator) (i : nat) (data : dict)
    : M W dict :=
  try_catch
    (t <- inner_text (Nth labels i) ;;
     let k := PyStr.rstrip_colon (PyStr.strip t) in
     sib <- evaluate_handle (Nth labels i) ;;
     (* [if sib:] holds for every handle object *)
     o <- evaluate sib ;;
     let v := match o with Some s => s | None => "" end in
     let v := PyStr.strip v in
     if PyStr.truthy k && PyStr.truthy v then ret (set k v data)
     else ret data)
    (fun _ => ret data).

Definition _collect_detail_fields : M W dict :=
  let data : dict := [] in
  let dts := Css "dt" in
  let dds := Css "dd" in
  go <- dt_dd_applicable dts dds ;;
  data <- (if go
           then n <- count dts ;;
                for_each (range n) (dt_dd_body dts dds) data
           else ret data) ;;
  data <- (if negb (truthy data)
           then let rows := Css "table tr" in
                n <- count rows ;;
                for_each (range n) (two_col_body rows) data
           else ret data) ;;
  data <- (if negb (truthy data)
           then let labels := Css "label" in
                n <- count labels ;;
                for_each (range (Nat.min n 50)) (label_body labels) data
           else ret data) ;;
  ret data.

(** *** Scrape Orchestrator *)

(** The [with page.expect_navigation(...)] block of lines 260-263. *)
Definition open_detail (idx_on_page : nat) : M W unit :=
  opened <- _open_row_detail idx_on_page ;;
  (if negb opened
   then raise (RuntimeError "Could not open detail row")
   else ret tt) ;;
  wait_navigation 12000.

(** The detail record of a row: what the collector returns, or the
    empty record when it raises (lines 268-272). *)
Definition detail_record : M W dict :=
  try_catch _collect_detail_fields (fun _ => ret []).

(** The return to the list view (lines 277-278). *)
Definition return_to_list : M W unit :=
  go_back ;; wait_for_selector "table" 10000.

(** The recovery sequence of lines 281-286. *)
Definition resync (term : string) (page_index : Z) : M W unit :=
  goto SEARCH_URL ;;
  _click_search term ;;
  wait_for_selector "table" 10000 ;;
  for_each (range (Z.to_nat (Z.max 0 (page_index - 1))))
           (fun _ _ => _click_next ;; wait_for_selector "table" 8000) tt.

(** Body of [for idx_on_page, base in enumerate(page_dicts)] below the
    cap test (lines 259-288). *)
Definition row_body (term : string) (idx_on_page : nat) (base : dict)
    (st : Session) : M W (flow * Session) :=
  opened <- try_catch (open_detail idx_on_page ;; ret true)
                      (fun _ => ret false) ;;
  if negb opened then ret (Continue, record_row base st)
  else
    details <- detail_record ;;
    let merged := unpack2 base details in
    let st := record_row merged st in
    back <- try_catch (return_to_list ;; ret true) (fun _ => ret false) ;;
    if back then ret (Continue, st)
    else
      synced <- try_catch (resync term (page_index st) ;; ret true)
                          (fun _ => ret false) ;;
      if synced then ret (Continue, st) else ret (Return, st).

(** The row loop of lines 256-288. *)
Fixpoint rows_loop (term : string) (max_records : Z)
    (page_dicts : list dict) (idx_on_page : nat) (st : Session)
    : M W (flow * Session) :=
  match page_dicts with
  | [] => ret (Continue, st)
  | base :: rest =>
      if (fetched st >=? max_records)%Z then ret (Continue, st)
      else
        r <- row_body term idx_on_page base st ;;
        match r with
        | (Continue, st') =>
            rows_loop term max_records rest (S idx_on_page) st'
        | (Return, st') => ret (Return, st')
        end
  end.

(** The [while True] loop of lines 245-295; [None] when [fuel] page
    iterations did not reach an exit. *)
Fixpoint pages_loop (fuel : nat) (term : string) (max_records : Z)
    (table_headers : list string) (st : Session)
    : M W (option Session) :=
  match fuel with
  | O => ret None
  | S fuel' =>
      rows_2d <- _extract_table_rows ;;
      match rows_2d with
      | [] => ret (Some st)
      | _ :: _ =>
          let page_dicts := map (base_record table_headers) rows_2d in
          r <- rows_loop term max_records page_dicts 0 st ;;
          match r with
          | (Return, st') => ret (Some st')
          | (Continue, st') =>
              if (fetched st' >=? max_records)%Z then ret (Some st')
              else
                moved <- _click_next ;;
                if negb moved then ret (Some st')
                else
                  sleep ;;
                  pages_loop fuel' term max_records table_headers
                             (next_page st')
          end
      end
  end.

(** The header attempts of lines 236-242. *)
Fixpoint headers_retry (attempts : nat) : M W (list string) :=
  match attempts with
  | O => ret []
  | S attempts' =>
      r <- try_catch (wait_for_selector "table" 8000 ;;
                      h <- _extract_table_headers ;;
                      ret (Some h))
                     (fun _ => ret None) ;;
      match r with
      | Some h => ret h
      | None => sleep ;; headers_retry attempts'
      end
  end.

(** Lines 225-233. *)
Definition dismiss_consent : M W unit :=
  for_each
    ["button:has-text('Accept')"; "button:has-text('I Agree')";
     "text=Accept All"]
    (fun sel _ => try_catch (click (First (Css sel)) 1500)
                            (fun _ => ret tt)) tt.

(** [per_page_sleep] only reaches [time.sleep] and is left out. *)
Definition scrape_businesses (fuel : nat) (term : string)
    (max_records : Z) (headless : bool)
    : M W (option (list dict * list string)) :=
  launch_context headless ;;
  try_finally
    (new_page ;;
     set_default_timeout 15000 ;;
     goto SEARCH_URL ;;
     dismiss_consent ;;
     _click_search term ;;
     table_headers <- headers_retry 3 ;;
     r <- pages_loop fuel term max_records table_headers initial_session ;;
     ret (option_map (fun st => (results st, table_headers)) r))
    (close_context ;; close_browser).

End Scraper.

(** ** A simulated provider

    A static page given by tables of match counts and texts, a choice of
    provider calls that time out, and a log of the elements clicked.  It
    serves to run the scraper on concrete pages. *)

Module Sim.

Inductive call : Type :=
| CLaunch | CClose | CNewPage | CSetTimeout | CGoto | CGoBack
| CWaitSelector | CWaitNavigation | CCount | CInnerText | CClick
| CFill | CPress | CEvaluate.

Definition call_code (c : call) : nat :=
  match c with
  | CLaunch => 0 | CClose => 1 | CNewPage => 2 | CSetTimeout => 3
  | CGoto => 4 | CGoBack => 5 | CWaitSelector => 6 | CWaitNavigation => 7
  | CCount => 8 | CInnerText => 9 | CClick => 10 | CFill => 11
  | CPress => 12 | CEvaluate => 13
  end.

Definition fails (failing : list call) (c : call) : bool :=
  existsb (fun c' => (call_code c =? call_code c')%nat) failing.

Definition option_eqb (a b : option string) : bool :=
  match a, b with
  | None, None => true
  | Some x, Some y => String.eqb x y
  | _, _ => false
  end.

Fixpoint locator_eqb (a b : locator) : bool :=
  match a, b with
  | Css s, Css t => String.eqb s t
  | ByRole r n, ByRole r' n' => String.eqb r r' && option_eqb n n'
  | First l, First l' => locator_eqb l l'
  | Nth l i, Nth l' i' => locator_eqb l l' && (i =? i')%nat
  | Within l s, Within l' s' => locator_eqb l l' && String.eqb s s'
  | _, _ => false
  end.

Fixpoint lookup {A : Type} (l : locator) (tbl : list (locator * A))
    : option A :=
  match tbl with
  | [] => None
  | (l', a) :: tbl' => if locator_eqb l l' then Some a else lookup l tbl'
  end.

Record world : Type := {
  counts : list (locator * nat);
  texts : list (locator * string);
  siblings : list (locator * string);
  clicked : list locator
}.

Definition log_click (l : locator) (w : world) : world :=
  {| counts := counts w; texts := texts w; siblings := siblings w;
     clicked := clicked w ++ [l] |}.

(** A call that only succeeds or times out. *)
Definition plain (failing : list call) (c : call) : M world unit :=
  if fails failing c then raise TimeoutError else ret tt.

Definition sim_count (failing : list call) (l : locator) : M world nat :=
  fun w =>
    if fails failing CCount then (Raise PlaywrightError, w)
    else (Ok (match lookup l (counts w) with Some n => n | None => 0 end),
          w).

(** Reading the text of an element the page does not have times out. *)
Definition sim_inner_text (failing : list call) (l : locator)
    : M world string :=
  fun w =>
    if fails failing CInnerText then (Raise TimeoutError, w)
    else match lookup l (texts w) with
         | Some s => (Ok s, w)
         | None => (Raise TimeoutError, w)
         end.

Definition sim_click (failing : list call) (l : locator) (_ : Z)
    : M world unit :=
  fun w =>
    if fails failing CClick then (Raise TimeoutError, w)
    else (Ok tt, log_click l w).

Definition sim_evaluate (failing : list call) (h : js_handle)
    : M world (option string) :=
  fun w =>
    if fails failing CEvaluate then (Raise PlaywrightError, w)
    else match h with
         | NextElementSibling l =>
             match lookup l (siblings w) with
             | Some s => (Ok (Some s), w)
             | None => (Raise PlaywrightError, w)
             end
         end.

Definition provider (failing : list call) : Provider world := {|
  launch_context := fun _ => plain failing CLaunch;
  close_context := plain failing CClose;
  close_browser := plain failing CClose;
  new_page := plain failing CNewPage;
  set_default_timeout := fun _ => plain failing CSetTimeout;
  goto := fun _ => plain failing CGoto;
  go_back := plain failing CGoBack;
  wait_for_selector := fun _ _ => plain failing CWaitSelector;
  wait_navigation := fun _ => plain failing CWaitNavigation;
  count := sim_count failing;
  inner_text := sim_inner_text failing;
  click := sim_click failing;
  fill := fun _ _ => plain failing CFill;
  press := fun _ => plain failing CPress;
  evaluate_handle := fun l => ret (NextElementSibling l);
  evaluate := sim_evaluate failing
|}.

Definition tbody_tr : locator := Css "table tbody tr".

(** A results page whose header row sits in the table body, as a table
    written without [thead] is parsed:
    [<table><tr><th>Name</th><th>Status</th></tr>
            <tr><td>ACME LLC</td><td>Active</td></tr></table>].
    The detail markup has one term/definition pair. *)
Definition acme_page : world := {|
  counts :=
    [(tbody_tr, 2); (Css "table tr", 2); (Css "table tr th", 2);
     (Within (Nth tbody_tr 0) "th", 2);
     (Within (Nth tbody_tr 0) "td,th", 2);
     (Within (Nth tbody_tr 1) "td", 2);
     (Within (Nth tbody_tr 1) "td,th", 2);
     (Within (Nth (Css "table tr") 0) "td,th", 2);
     (Within (Nth (Css "table tr") 1) "td,th", 2);
     (Css "dt", 1); (Css "dd", 1)];
  texts :=
    [(Nth (Css "table tr th") 0, "Name");
     (Nth (Css "table tr th") 1, "Status");
     (Nth (Within (Nth tbody_tr 1) "td") 0, "ACME LLC");
     (Nth (Within (Nth tbody_tr 1) "td") 1, " Active ");
     (Nth (Within (Nth (Css "table tr") 0) "td,th") 0, "Name");
     (Nth (Within (Nth (Css "table tr") 0) "td,th") 1, "Status");
     (Nth (Within (Nth (Css "table tr") 1) "td,th") 0, "ACME LLC");
     (Nth (Within (Nth (Css "table tr") 1) "td,th") 1, "Active");
     (Nth (Css "dt") 0, "Entity Number:");
     (Nth (Css "dd") 0, "C1234567")];
  siblings := [];
  clicked := []
|}.

(** A page without any table. *)
Definition blank_page : world :=
  {| counts := []; texts := []; siblings := []; clicked := [] |}.

End Sim.

(** ** Notions used by the statements *)

(** The placeholder keys [col_1 .. col_n]. *)
Definition col_names (n : nat) : list string :=
  map (fun i => ("col_" ++ PyStr.of_nat i)%string) (seq 1 n).

Section Notions.
Context {W : Type} {P : Provider W}.

(** A computation that returns from every world. *)
Definition never_raises {A : Type} (m : M W A) : Prop :=
  forall w, exists a w', m w = (Ok a, w').

(** The three ways the detail-open step of a row fails: the action
    raises, it reports [False], or the navigation wait that wraps it
    times out. *)
Definition detail_open_fails (idx : nat) (w w' : W) : Prop :=
  (exists e, _open_row_detail idx w = (Raise e, w'))
  \/ _open_row_detail idx w = (Ok false, w')
  \/ (exists w1 e, _open_row_detail idx w = (Ok true, w1)
                   /\ wait_navigation 12000 w1 = (Raise e, w')).

(** The session states a scrape passes through: the initial one, the
    state after each executed row body, and the state after each page
    advance. *)
Inductive session_point (term : string) (max_records : Z)
    : Session -> Prop :=
| point_initial : session_point term max_records initial_session
| point_row : forall idx base st w f st' w',
    session_point term max_records st ->
    (fetched st >=? max_records)%Z = false ->
    row_body term idx base st w = (Ok (f, st'), w') ->
    session_point term max_records st'
| point_next_page : forall st,
    session_point term max_records st ->
    session_point term max_records (next_page st).

(** *** The Detail Collector as the specification words it

    Three independent strategies, each starting from an empty record,
    tried in order until one yields a pair. *)

Definition term_definition_pairs : M W dict :=
  go <- dt_dd_applicable (Css "dt") (Css "dd") ;;
  if go
  then n <- count (Css "dt") ;;
       for_each (range n) (dt_dd_body (Css "dt") (Css "dd")) []
  else ret [].

Definition two_column_rows : M W dict :=
  n <- count (Css "table tr") ;;
  for_each (range n) (two_col_body (Css "table tr")) [].

Definition label_sibling_pairs : M W dict :=
  n <- count (Css "label") ;;
  for_each (range (Nat.min n 50)) (label_body (Css "label")) [].

Fixpoint first_strategy_wins (strategies : list (M W dict)) : M W dict :=
  match strategies with
  | [] => ret []
  | s :: rest =>
      pairs <- s ;;
      if truthy pairs then ret pairs else first_strategy_wins rest
  end.

End Notions.

(** ** The CSV table of [write_csv] (lines 13-20) *)

(** [sorted(xs)] on strings.  The order is the lexicographic order of the
    characters; on pairwise distinct strings every sorting algorithm
    returns the same list. *)
Fixpoint insert_sorted (k : string) (l : list string) : list string :=
  match l with
  | [] => [k]
  | x :: l' => if String.leb k x then k :: l else x :: insert_sorted k l'
  end.

Definition sorted (l : list string) : list string :=
  fold_right insert_sorted [] l.

(** [{k for row in rows for k in row.keys()}], listed in some order without
    repetition. *)
Definition key_set (rows : list dict) : list string :=
  nodup string_dec (flat_map keys rows).

(** Line 15. *)
Definition fieldnames (rows : list dict) : list string :=
  match rows with
  | [] => []
  | _ :: _ => sorted (key_set rows)
  end.

(** [row.get(h, dflt)] *)
Definition get_default (row : dict) (h dflt : string) : string :=
  match get row h with
  | Some v => v
  | None => dflt
  end.

(** [{h: row.get(h, "") for h in headers}] (line 20). *)
Definition row_dict (headers : list string) (row : dict) : dict :=
  fold_left (fun d h => set h (get_default row h "") d) headers [].

(** The fields [csv.DictWriter.writerow(d)] hands to the underlying
    writer: the value of each field name, [""] where [d] lacks it. *)
Definition writerow_fields (fields : list string) (d : dict) : list string :=
  map (fun f => get_default d f "") fields.

(** ** The host of the HTTP handler: clock, paths, files *)

(** The two paths of [search]: [Path("data") / f"results_{term}_{ts}.csv"]
    and [Path()]. *)
Inductive path : Type :=
| ResultsFile (term ts : string)
| CurrentDir.

Class Host (W : Type) : Type := {
  (* datetime.now().strftime("%Y%m%d_%H%M%S") *)
  now_stamp : W -> string;
  (* str(Path("data") / f"results_{term}_{ts}.csv") *)
  results_file_str : string -> string -> string;
  (* out_path.parent.mkdir(parents=True, exist_ok=True) *)
  mkdir_parents : path -> M W unit;
  (* out_path.open("w", newline="", encoding="utf-8") *)
  open_write : path -> M W unit;
  (* one row handed to the csv writer of the open file *)
  writerow : list string -> M W unit;
  (* leaving the [with] block of the open file *)
  close_file : M W unit;
  (* str(e) *)
  str_exn : exn -> string
}.

(** The JSON object [search] returns; the fields are its keys [term],
    [count], [limit], [table_headers], [csv_file], [data] and the optional
    [error]. *)
Record Payload : Type := {
  p_term : string;
  p_count : Z;
  p_limit : Z;
  p_table_headers : list string;
  p_csv_file : option string;
  p_data : list dict;
  p_error : option string
}.

Section Handler.
Context {W : Type} {P : Provider W} {H : Host W}.

(** [str(p)]; [str(Path())] is ["."]. *)
Definition str_path (p : path) : string :=
  match p with
  | ResultsFile term ts => results_file_str term ts
  | CurrentDir => "."
  end.

(** Reading the clock cannot fail. *)
Definition clock : M W string := fun w => (Ok (now_stamp w), w).

Definition write_csv (rows : list dict) (out_path : path) : M W unit :=
  mkdir_parents out_path ;;
  let headers := fieldnames rows in
  open_write out_path ;;
  try_finally
    (writerow headers ;;
     for_each rows
       (fun row _ => writerow (writerow_fields headers (row_dict headers row)))
       tt)
    close_file.

(** The handler of [GET /search] in [main.py]; [fuel] bounds the page loop
    of the scrape, and [None] is its running out. *)
Definition search (fuel : nat) (term : string) (limit : Z) (headless : bool)
    : M W (option Payload) :=
  r <- try_catch
         (out <- scrape_businesses fuel term limit headless ;;
          ret (option_map (fun rh => (fst rh, snd rh, @None string)) out))
         (fun e => ret (Some ([], [], Some (str_exn e)))) ;;
  match r with
  | None => ret None
  | Some (rows, headers, error_msg) =>
      ts <- clock ;;
      let csv_path := ResultsFile term ts in
      csv_path <- try_catch (write_csv rows csv_path ;; ret csv_path)
                            (fun _ => ret CurrentDir) ;;
      let payload :=
        {| p_term := term;
           p_count := Z.of_nat (List.length rows);
           p_limit := limit;
           p_table_headers := headers;
           p_csv_file := if PyStr.truthy (str_path csv_path)
                         then Some (str_path csv_path) else None;
           p_data := rows;
           p_error := None |} in
      let payload :=
        match error_msg with
        | Some msg =>
            if PyStr.truthy msg
            then {| p_term := p_term payload;
                    p_count := p_count payload;
                    p_limit := p_limit payload;
                    p_table_headers := p_table_headers payload;
                    p_csv_file := p_csv_file payload;
                    p_data := p_data payload;
                    p_error := Some msg |}
            else payload
        | None => payload
        end in
      ret (Some payload)
  end.

End Handler.

(** A host for the simulated provider: a fixed clock, plain path strings,
    and file operations that all fail or all succeed. *)
Module SimHost.

Definition file_op (csv_fails : bool) : M Sim.world unit :=
  if csv_fails then raise PlaywrightError else ret tt.

Definition host (csv_fails : bool) : Host Sim.world := {|
  now_stamp := fun _ => "20260101_120000";
  results_file_str := fun term ts =>
    ("data/results_" ++ term ++ "_" ++ ts ++ ".csv")%string;
  mkdir_parents := fun _ => file_op csv_fails;
  open_write := fun _ => file_op csv_fails;
  writerow := fun _ => file_op csv_fails;
  close_file := file_op csv_fails;
  str_exn := fun e =>
    match e with
    | TimeoutError => "Timeout 30000ms exceeded."
    | PlaywrightError => "Target closed"
    | RuntimeError msg => msg
    end
|}.

End SimHost.

(** ** Further notions used by the statements *)

(** A result record derived from a base record: the base record itself, or
    the base record overlaid with a detail record. *)
Definition derived_from (base rec : dict) : Prop :=
  rec = base \/ exists details, wf details /\ rec = unpack2 base details.

(** A row the extractor accepts: some cell is not blank. *)
Definition has_text (row : list string) : bool :=
  existsb (fun c => PyStr.truthy (PyStr.strip c)) row.

(** A row as the extractor keeps it: some cell not blank, every cell
    trimmed. *)
Definition accepted (row : list string) : Prop :=
  has_text row = true /\ Forall (fun c => PyStr.strip c = c) row.

(** A header label as the extractor keeps it. *)
Definition label_ok (h : string) : Prop := h <> "" /\ PyStr.strip h = h.

(** A field label as the collector keeps it: not empty, no colon at its
    end. *)
Definition key_ok (k : string) : Prop :=
  k <> "" /\ PyStr.rstrip_colon k = k.

(** Strictly increasing in the order of [sorted]. *)
Definition strictly_sorted (l : list string) : Prop :=
  StronglySorted (fun a b => String.ltb a b = true) l.

(** ** A simulated provider with several result pages

    The current page behaves as in [Sim]; clicking the [Next] link moves on
    to the following page, when there is one. *)

Module SimPages.

Record world : Type := {
  current : Sim.world;
  later : list Sim.world
}.

Definition next_link : locator := First (Css "a[aria-label='Next']").

Definition on_current {A : Type} (m : M Sim.world A) : M world A :=
  fun w =>
    match m (current w) with
    | (r, c) => (r, {| current := c; later := later w |})
    end.

Definition paged_click (failing : list Sim.call) (l : locator) (t : Z)
    : M world unit :=
  fun w =>
    if Sim.locator_eqb l next_link then
      match later w with
      | p :: ps =>
          if Sim.fails failing Sim.CClick then (Raise TimeoutError, w)
          else (Ok tt, {| current := p; later := ps |})
      | [] => on_current (Sim.sim_click failing l t) w
      end
    else on_current (Sim.sim_click failing l t) w.

Definition provider (failing : list Sim.call) : Provider world := {|
  launch_context := fun _ => on_current (Sim.plain failing Sim.CLaunch);
  close_context := on_current (Sim.plain failing Sim.CClose);
  close_browser := on_current (Sim.plain failing Sim.CClose);
  new_page := on_current (Sim.plain failing Sim.CNewPage);
  set_default_timeout := fun _ =>
    on_current (Sim.plain failing Sim.CSetTimeout);
  goto := fun _ => on_current (Sim.plain failing Sim.CGoto);
  go_back := on_current (Sim.plain failing Sim.CGoBack);
  wait_for_selector := fun _ _ =>
    on_current (Sim.plain failing Sim.CWaitSelector);
  wait_navigation := fun _ =>
    on_current (Sim.plain failing Sim.CWaitNavigation);
  count := fun l => on_current (Sim.sim_count failing l);
  inner_text := fun l => on_current (Sim.sim_inner_text failing l);
  click := paged_click failing;
  fill := fun _ _ => on_current (Sim.plain failing Sim.CFill);
  press := fun _ => on_current (Sim.plain failing Sim.CPress);
  evaluate_handle := fun l => ret (NextElementSibling l);
  evaluate := fun h => on_current (Sim.sim_evaluate failing h)
|}.

(** [Sim.acme_page] with a [Next] link. *)
Definition acme_with_next : Sim.world := {|
  Sim.counts := (Css "a[aria-label='Next']", 1) :: Sim.counts Sim.acme_page;
  Sim.texts := Sim.texts Sim.acme_page;
  Sim.siblings := [];
  Sim.clicked := []
|}.

(** One page of results followed by a page without rows. *)
Definition two_pages : world :=
  {| current := acme_with_next; later := [Sim.blank_page] |}.

End SimPages.

(** A page whose only header cell and only body cell hold a no-break
    space (U+00A0, the bytes C2 A0). *)
Definition nbsp : string :=
  String (ascii_of_nat 194) (String (ascii_of_nat 160) EmptyString).

Definition nbsp_page : Sim.world := {|
  Sim.counts :=
    [(Sim.tbody_tr, 1); (Css "table thead tr th", 1);
     (Within (Nth Sim.tbody_tr 0) "td", 1)];
  Sim.texts :=
    [(Nth (Css "table thead tr th") 0, nbsp);
     (Nth (Within (Nth Sim.tbody_tr 0) "td") 0, nbsp)];
  Sim.siblings := [];
  Sim.clicked := []
|}.

(** ** Notions for whole sessions *)

Section SessionNotions.
Context {W : Type} {P : Provider W}.

(** Lines 222-242 of [scrape_businesses]: everything between the launch
    and the page loop; the result is [table_headers]. *)
Definition session_setup (term : string) : M W (list string) :=
  new_page ;;
  set_default_timeout 15000 ;;
  goto SEARCH_URL ;;
  dismiss_consent ;;
  _click_search term ;;
  headers_retry 3.

(** [page_reached term max hdrs st w st' w']: the page loop, at the head of
    an iteration in state [st] and world [w], comes to the head of a later
    iteration (or stays at this one) in state [st'] and world [w']. *)
Inductive page_reached (term : string) (max_records : Z)
    (table_headers : list string)
    : Session -> W -> Session -> W -> Prop :=
| reached_here : forall st w,
    page_reached term max_records table_headers st w st w
| reached_next : forall st w r rows_2d w1 st1 w2 w3 st' w',
    _extract_table_rows w = (Ok (r :: rows_2d), w1) ->
    rows_loop term max_records
              (map (base_record table_headers) (r :: rows_2d)) 0 st w1
    = (Ok (Continue, st1), w2) ->
    (fetched st1 >=? max_records)%Z = false ->
    _click_next w2 = (Ok true, w3) ->
    page_reached term max_records table_headers (next_page st1) w3 st' w' ->
    page_reached term max_records table_headers st w st' w'.

(** The record the body of the row loop appends for the row at index
    [idx] when run in world [w]: the base record when opening the detail
    view fails, else the base record overlaid with what the detail step
    returns in the world the opening leaves. *)
Definition row_record (idx : nat) (base : dict) (w : W) (rec : dict)
    : Prop :=
  (exists e w', open_detail idx w = (Raise e, w') /\ rec = base)
  \/ (exists w1 details w2,
        open_detail idx w = (Ok tt, w1)
        /\ detail_record w1 = (Ok details, w2)
        /\ rec = unpack2 base details).

(** [row_reached_at term max pds i st w i' st' w']: the row loop over
    [pds], before the row at index [i] in state [st] and world [w], comes
    to stand before the row at index [i'] in state [st'] and world [w']. *)
Inductive row_reached_at (term : string) (max_records : Z)
    (page_dicts : list dict)
    : nat -> Session -> W -> nat -> Session -> W -> Prop :=
| row_here : forall idx st w,
    row_reached_at term max_records page_dicts idx st w idx st w
| row_next : forall idx base st w st1 w1 idx' st' w',
    nth_error page_dicts idx = Some base ->
    (fetched st >=? max_records)%Z = false ->
    row_body term idx base st w = (Ok (Continue, st1), w1) ->
    row_reached_at term max_records page_dicts (S idx) st1 w1 idx' st' w' ->
    row_reached_at term max_records page_dicts idx st w idx' st' w'.

(** A record appended by the session whose page loop starts in [st0] and
    [w0]: at a page the loop reached, the extractor returned [rows_2d];
    the row loop over their base records came, below the cap, to the row
    at some index; and the record is what the loop body appends there. *)
Definition record_of_session (term : string) (max_records : Z)
    (table_headers : list string) (st0 : Session) (w0 : W) (rec : dict)
    : Prop :=
  exists st w rows_2d w1 idx row st_r w_r,
    page_reached term max_records table_headers st0 w0 st w
    /\ _extract_table_rows w = (Ok rows_2d, w1)
    /\ nth_error rows_2d idx = Some row
    /\ row_reached_at term max_records
         (map (base_record table_headers) rows_2d) 0 st w1 idx st_r w_r
    /\ (fetched st_r >=? max_records)%Z = false
    /\ row_record idx (base_record table_headers row) w_r rec.

End SessionNotions.

(** * Properties *)

(** ** Dictionaries *)



Lemma get_none_notin : forall d k, ~ In k (keys d) -> get d k = None.
Proof.
  induction d as [|[k' v'] d IH]; intros k Hn; simpl in *; auto.
  destruct (String.eqb k k') eqn:E.
  - apply String.eqb_eq in E. subst. tauto.
  - apply IH. tauto.
Qed.

Lemma set_fresh : forall d k v, ~ In k (keys d) -> set k v d = d ++ [(k, v)].
Proof.
  induction d as [|[k' v'] d IH]; intros k v Hn; simpl in *; auto.
  destruct (String.eqb k k') eqn:E.
  - apply String.eqb_eq in E. subst. tauto.
  - f_equal. apply IH. tauto.
Qed.

Lemma keys_set : forall d k v,
  keys (set k v d) = if in_dec string_dec k (keys d) then keys d
                     else keys d ++ [k].
Proof.
  induction d as [|[k' v'] d IH]; intros k v; simpl; auto.
  destruct (String.eqb k k') eqn:E.
  - apply String.eqb_eq in E. subst.
    destruct (string_dec k' k'); [|congruence]. reflexivity.
  - apply String.eqb_neq in E.
    destruct (string_dec k' k); [congruence|].
    simpl. rewrite IH. unfold keys.
    destruct (in_dec string_dec k (map fst d)); reflexivity.
Qed.

Lemma wf_empty : wf [].
Proof. constructor. Qed.

Lemma wf_set : forall d k v, wf d -> wf (set k v d).
Proof.
  unfold wf. intros d k v Hd. rewrite keys_set.
  destruct (in_dec string_dec k (keys d)); auto.
  apply NoDup_app; auto.
  - constructor; [intros []|constructor].
  - intros x Hx [<-|[]]. auto.
Qed.


Lemma update_fresh : forall e d,
  NoDup (keys d ++ keys e) -> update d e = d ++ e.
Proof.
  unfold update.
  induction e as [|[k v] e IH]; intros d Hnd; simpl.
  - now rewrite app_nil_r.
  - simpl in Hnd. rewrite set_fresh.
    + rewrite IH.
      * now rewrite <- app_assoc.
      * unfold keys in *. rewrite map_app, <- app_assoc. exact Hnd.
    + apply NoDup_remove_2 in Hnd. intros Hin. apply Hnd.
      apply in_or_app. now left.
Qed.


(** ** Base records *)

Lemma of_nat_inj : forall n m, PyStr.of_nat n = PyStr.of_nat m -> n = m.
Proof.
  unfold PyStr.of_nat. intros n m E.
  apply DecimalNat.Unsigned.to_uint_inj.
  pose proof (DecimalString.NilEmpty.usu (Nat.to_uint n)) as Hn.
  pose proof (DecimalString.NilEmpty.usu (Nat.to_uint m)) as Hm.
  rewrite E in Hn. congruence.
Qed.

Lemma NoDup_map_inj : forall (A B : Type) (f : A -> B) (l : list A),
  (forall x y, f x = f y -> x = y) -> NoDup l -> NoDup (map f l).
Proof.
  intros A B f l Hinj. induction 1 as [|x l Hx Hl IH]; simpl; constructor; auto.
  intros Hin. apply in_map_iff in Hin as (y & Hy & Hyl).
  apply Hinj in Hy. subst. auto.
Qed.

Lemma col_names_NoDup : forall n, NoDup (col_names n).
Proof.
  intros n. unfold col_names. apply NoDup_map_inj.
  - intros x y E. simpl in E. apply of_nat_inj. congruence.
  - apply seq_NoDup.
Qed.

Lemma length_col_names : forall n, List.length (col_names n) = n.
Proof. intros. unfold col_names. now rewrite length_map, length_seq. Qed.

Lemma fold_set_update :
  forall (f g : nat -> string) (idxs : list nat) (acc : dict),
    fold_left (fun d i => set (f i) (g i) d) idxs acc
    = update acc (map (fun i => (f i, g i)) idxs).
Proof.
  unfold update. induction idxs as [|i idxs IH]; intros acc; simpl; auto.
Qed.

Lemma map_nth_combine : forall (H R : list string),
  List.length R = List.length H ->
  map (fun i => (nth i H "", nth i R "")) (seq 0 (List.length R))
  = combine H R.
Proof.
  induction H as [|h H IH]; intros [|r R] E; simpl in *; try discriminate; auto.
  f_equal. rewrite <- seq_shift, map_map. apply IH. congruence.
Qed.

Lemma map_col_combine : forall (R : list string) (a : nat),
  map (fun i => (("col_" ++ PyStr.of_nat (a + i + 1))%string, nth i R ""))
      (seq 0 (List.length R))
  = combine (map (fun i => ("col_" ++ PyStr.of_nat i)%string)
                 (seq (S a) (List.length R))) R.
Proof.
  induction R as [|r R IH]; intros a; [reflexivity|].
  cbn [List.length seq map combine nth].
  f_equal.
  - now rewrite Nat.add_0_r, Nat.add_1_r.
  - rewrite <- (IH (S a)), <- seq_shift, map_map.
    apply map_ext. intros i.
    now replace (a + S i + 1)%nat with (S a + i + 1)%nat by lia.
Qed.

Lemma keys_combine : forall (K V : list string),
  List.length K = List.length V -> keys (combine K V) = K.
Proof.
  induction K as [|k K IH]; intros [|v V] E; simpl in *; try discriminate; auto.
  f_equal. apply IH. congruence.
Qed.

Lemma values_combine : forall (K V : list string),
  List.length K = List.length V -> map snd (combine K V) = V.
Proof.
  induction K as [|k K IH]; intros [|v V] E; simpl in *; try discriminate; auto.
  f_equal. apply IH. congruence.
Qed.

Lemma header_keyed_combine : forall H R,
  List.length R = List.length H -> NoDup H ->
  header_keyed H R = combine H R.
Proof.
  intros H R E Hnd. unfold header_keyed, range.
  rewrite fold_set_update, map_nth_combine by assumption.
  rewrite update_fresh; auto. simpl.
  rewrite keys_combine; auto.
Qed.

Lemma map_col_names : forall (R : list string),
  map (fun i => (("col_" ++ PyStr.of_nat (i + 1))%string, nth i R ""))
      (seq 0 (List.length R))
  = combine (col_names (List.length R)) R.
Proof.
  intros R. unfold col_names. rewrite <- (map_col_combine R 0).
  apply map_ext. intros i. reflexivity.
Qed.

Lemma col_keyed_combine : forall R,
  col_keyed R = combine (col_names (List.length R)) R.
Proof.
  intros R. unfold col_keyed, range.
  rewrite (fold_set_update (fun i => ("col_" ++ PyStr.of_nat (i + 1))%string)
                           (fun i => nth i R "")).
  rewrite map_col_names.
  apply update_fresh. simpl.
  rewrite keys_combine.
  - apply col_names_NoDup.
  - apply length_col_names.
Qed.


(** C3, the claim as stated fails: with a repeated header label the
    record has fewer keys than the row has cells. *)
Lemma base_record_repeated_label :
  List.length ["ACME LLC"; "Active"] = List.length ["Name"; "Name"]
  /\ keys (base_record ["Name"; "Name"] ["ACME LLC"; "Active"])
     <> ["Name"; "Name"]
  /\ List.length (keys (base_record ["Name"; "Name"] ["ACME LLC"; "Active"]))
     <> List.length ["ACME LLC"; "Active"].
Proof.
  repeat split; vm_compute; discriminate.
Qed.

(** C3 (amended): when the row is as long as a header sequence without
    repeated labels, the base record pairs the labels with the cells in
    order; when the lengths differ it pairs [col_1 .. col_len(R)] with the
    cells in order; in both cases it has as many keys as the row has
    cells. *)
Theorem base_record_keys : forall (H R : list string),
  (List.length R = List.length H -> NoDup H ->
     keys (base_record H R) = H
     /\ map snd (base_record H R) = R
     /\ List.length (keys (base_record H R)) = List.length R)
  /\ (List.length R <> List.length H ->
     keys (base_record H R) = col_names (List.length R)
     /\ map snd (base_record H R) = R
     /\ List.length (keys (base_record H R)) = List.length R).
Proof.
  intros H R. split.
  - intros E Hnd. unfold base_record.
    destruct H as [|h H'].
    + destruct R; [|discriminate]. simpl. auto.
    + rewrite E, Nat.eqb_refl. simpl andb. cbv iota.
      rewrite header_keyed_combine by assumption.
      rewrite keys_combine, values_combine by congruence. auto.
  - intros Hne. unfold base_record.
    apply Nat.eqb_neq in Hne. rewrite Hne, andb_false_r.
    rewrite col_keyed_combine.
    rewrite keys_combine, values_combine
      by now rewrite length_col_names.
    now rewrite length_col_names.
Qed.

Lemma base_record_keys_witness :
  keys (base_record ["Name"; "Status"] ["ACME LLC"; "Active"])
  = ["Name"; "Status"]
  /\ keys (base_record ["Name"; "Status"] ["a"; "b"; "c"])
     = ["col_1"; "col_2"; "col_3"].
Proof.
  split.
  - apply (base_record_keys ["Name"; "Status"] ["ACME LLC"; "Active"]).
    + reflexivity.
    + repeat constructor; simpl; intuition discriminate.
  - apply (base_record_keys ["Name"; "Status"] ["a"; "b"; "c"]).
    simpl. discriminate.
Defined.

(** ** Provider computations *)

Section MonadLaws.
Context {W : Type}.

Lemma bind_ok : forall (A B : Type) (m : M W A) (f : A -> M W B) w a w',
  m w = (Ok a, w') -> bind m f w = f a w'.
Proof. intros * E. unfold bind. now rewrite E. Qed.

Lemma bind_raise_eq : forall (A B : Type) (m : M W A) (f : A -> M W B) w e w',
  m w = (Raise e, w') -> bind m f w = (Raise e, w').
Proof. intros * E. unfold bind. now rewrite E. Qed.

Lemma bind_assoc :
  forall (A B C : Type) (m : M W A) (f : A -> M W B) (g : B -> M W C) w,
    bind (bind m f) g w = bind m (fun a => bind (f a) g) w.
Proof.
  intros. unfold bind. destruct (m w) as [[a|e] w']; reflexivity.
Qed.

Lemma bind_ext :
  forall (A B : Type) (m : M W A) (f g : A -> M W B) w,
    (forall a w', f a w' = g a w') -> bind m f w = bind m g w.
Proof.
  intros * Hfg. unfold bind. destruct (m w) as [[a|e] w']; auto.
Qed.

Lemma bind_ret_r : forall (A : Type) (m : M W A) w, bind m ret w = m w.
Proof.
  intros. unfold bind, ret. destruct (m w) as [[a|e] w']; reflexivity.
Qed.

Lemma bind_inv_ok :
  forall (A B : Type) (m : M W A) (f : A -> M W B) w b w',
    bind m f w = (Ok b, w') ->
    exists a w1, m w = (Ok a, w1) /\ f a w1 = (Ok b, w').
Proof.
  intros * E. unfold bind in E.
  destruct (m w) as [[a|e] w1]; [|discriminate].
  now exists a, w1.
Qed.

Lemma attempt_ok : forall (A : Type) (m : M W A) w a w',
  m w = (Ok a, w') ->
  try_catch (m ;; ret true) (fun _ => ret false) w = (Ok true, w').
Proof.
  intros * E. unfold try_catch, bind. now rewrite E.
Qed.

Lemma attempt_raise : forall (A : Type) (m : M W A) w e w',
  m w = (Raise e, w') ->
  try_catch (m ;; ret true) (fun _ => ret false) w = (Ok false, w').
Proof.
  intros * E. unfold try_catch, bind. now rewrite E.
Qed.

Lemma attempt_cases : forall (A : Type) (m : M W A) w,
  (exists a w', m w = (Ok a, w')
     /\ try_catch (m ;; ret true) (fun _ => ret false) w = (Ok true, w'))
  \/ (exists e w', m w = (Raise e, w')
     /\ try_catch (m ;; ret true) (fun _ => ret false) w = (Ok false, w')).
Proof.
  intros. destruct (m w) as [[a|e] w'] eqn:E.
  - left. exists a, w'. split; auto. eapply attempt_ok; eauto.
  - right. exists e, w'. split; auto. eapply attempt_raise; eauto.
Qed.

Lemma try_catch_inv_ok : forall (A : Type) (m : M W A) h w a w',
  try_catch m h w = (Ok a, w') ->
  m w = (Ok a, w')
  \/ exists e w1, m w = (Raise e, w1) /\ h e w1 = (Ok a, w').
Proof.
  intros * E. unfold try_catch in E.
  destruct (m w) as [[a0|e] w1]; [now left|].
  right. now exists e, w1.
Qed.

Lemma try_finally_inv_ok :
  forall (A : Type) (m : M W A) (fin : M W unit) w a w',
    try_finally m fin w = (Ok a, w') -> exists w1, m w = (Ok a, w1).
Proof.
  intros * E. unfold try_finally in E.
  destruct (m w) as [r w1]. destruct (fin w1) as [[u|e] w2].
  - inversion E; subst. now exists w1.
  - discriminate.
Qed.

Lemma try_finally_ok :
  forall (A : Type) (m : M W A) (fin : M W unit) w a w1 w2,
    m w = (Ok a, w1) -> fin w1 = (Ok tt, w2) ->
    try_finally m fin w = (Ok a, w2).
Proof. intros * Em Ef. unfold try_finally. now rewrite Em, Ef. Qed.

(** A property of the loop variable that every iteration keeps holds when
    the loop returns. *)
Lemma for_each_inv :
  forall (A S : Type) (Inv : S -> Prop) (body : A -> S -> M W S),
    (forall x s w s' w', Inv s -> body x s w = (Ok s', w') -> Inv s') ->
    forall xs s w s' w',
      Inv s -> for_each xs body s w = (Ok s', w') -> Inv s'.
Proof.
  intros A S Inv body Hbody.
  induction xs as [|x xs IH]; intros s w s' w' Hs E; simpl in E.
  - inversion E; subst. assumption.
  - apply bind_inv_ok in E as (s1 & w1 & E1 & E).
    eapply IH; [|exact E]. eapply Hbody; eauto.
Qed.

End MonadLaws.

Section DetailCollector.
Context {W : Type} {P : Provider W}.

Lemma collect_as_first_strategy : forall w : W,
  _collect_detail_fields w
  = first_strategy_wins
      [term_definition_pairs; two_column_rows; label_sibling_pairs] w.
Proof.
  intros w.
  unfold _collect_detail_fields, first_strategy_wins,
    term_definition_pairs, two_column_rows, label_sibling_pairs.
  cbv zeta. rewrite !bind_assoc.
  apply bind_ext. intros go w1.
  apply bind_ext. intros [|kv data] w2; [|reflexivity].
  cbn [truthy negb]. rewrite !bind_assoc.
  apply bind_ext. intros n w3.
  apply bind_ext. intros [|kv data] w4; [|reflexivity].
  cbn [truthy negb]. rewrite bind_ret_r.
  rewrite <- (bind_ret_r _ (bind (count (Css "label")) _)) at 1.
  apply bind_ext. intros [|kv data] w5; reflexivity.
Qed.

(** C5: the collector is the first-success combination of the three
    strategies in the order term/definition, two-column rows, label and
    sibling, each starting from an empty record: what it returns is the
    output of exactly one strategy, the first with a pair (or the empty
    output of the last); the term/definition strategy reads no element
    unless the definitions counted are at least as many as the terms. *)
Theorem collect_first_strategy_wins : forall w : W,
  _collect_detail_fields w
  = first_strategy_wins
      [term_definition_pairs; two_column_rows; label_sibling_pairs] w
  /\ (forall data w',
        _collect_detail_fields w = (Ok data, w') ->
        (data <> [] /\ term_definition_pairs w = (Ok data, w'))
        \/ (exists w1,
              term_definition_pairs w = (Ok [], w1)
              /\ data <> [] /\ two_column_rows w1 = (Ok data, w'))
        \/ (exists w1 w2,
              term_definition_pairs w = (Ok [], w1)
              /\ two_column_rows w1 = (Ok [], w2)
              /\ label_sibling_pairs w2 = (Ok data, w')))
  /\ (forall w1,
        dt_dd_applicable (Css "dt") (Css "dd") w = (Ok false, w1) ->
        term_definition_pairs w = (Ok [], w1))
  /\ (forall w1,
        dt_dd_applicable (Css "dt") (Css "dd") w = (Ok true, w1) ->
        exists n wa n_dd wb n_dt,
          count (Css "dt") w = (Ok n, wa)
          /\ count (Css "dd") wa = (Ok n_dd, wb)
          /\ count (Css "dt") wb = (Ok n_dt, w1)
          /\ (0 < n)%nat /\ (n_dt <= n_dd)%nat).
Proof.
  intros w. split; [|split; [|split]].
  - apply collect_as_first_strategy.
  - intros data w' E. rewrite collect_as_first_strategy in E.
    cbn [first_strategy_wins] in E.
    apply bind_inv_ok in E as ([|kv1 d1] & w1 & E1 & E); cbn [truthy] in E.
    + right.
      apply bind_inv_ok in E as ([|kv2 d2] & w2 & E2 & E); cbn [truthy] in E.
      * right. exists w1, w2. repeat split; auto.
        apply bind_inv_ok in E as ([|kv3 d3] & w3 & E3 & E);
          cbn [truthy] in E; inversion E; subst; assumption.
      * left. exists w1. inversion E; subst.
        repeat split; auto. discriminate.
    + left. inversion E; subst. split; [discriminate|assumption].
  - intros w1 Hgo. unfold term_definition_pairs, bind. now rewrite Hgo.
  - intros w1. unfold dt_dd_applicable, bind.
    destruct (count (Css "dt") w) as [[n|e] wa] eqn:E1; [|discriminate].
    destruct (0 <? n)%nat eqn:Hn; [|discriminate].
    destruct (count (Css "dd") wa) as [[n_dd|e] wb] eqn:E2; [|discriminate].
    destruct (count (Css "dt") wb) as [[n_dt|e] wc] eqn:E3; [|discriminate].
    unfold ret. intros [= Hle ->].
    exists n, wa, n_dd, wb, n_dt.
    apply Nat.ltb_lt in Hn. apply Nat.leb_le in Hle. auto.
Qed.

Lemma dt_dd_body_wf : forall dts dds i data (w : W) data' w',
  wf data -> dt_dd_body dts dds i data w = (Ok data', w') -> wf data'.
Proof.
  intros * Hwf E. unfold dt_dd_body in E.
  apply bind_inv_ok in E as (t & w1 & _ & E).
  apply bind_inv_ok in E as (u & w2 & _ & E).
  destruct (PyStr.truthy _); inversion E; subst; auto using wf_set.
Qed.

Lemma two_col_body_wf : forall rows i data (w : W) data' w',
  wf data -> two_col_body rows i data w = (Ok data', w') -> wf data'.
Proof.
  intros * Hwf E. unfold two_col_body in E.
  apply bind_inv_ok in E as (c & w1 & _ & E).
  destruct (2 <=? c)%nat.
  - apply bind_inv_ok in E as (t & w2 & _ & E).
    apply bind_inv_ok in E as (u & w3 & _ & E).
    destruct (_ && _); inversion E; subst; auto using wf_set.
  - inversion E; subst. assumption.
Qed.

Lemma label_body_wf : forall labels i data (w : W) data' w',
  wf data -> label_body labels i data w = (Ok data', w') -> wf data'.
Proof.
  intros * Hwf E. unfold label_body in E.
  apply try_catch_inv_ok in E as [E|(e & w1 & _ & E)].
  - apply bind_inv_ok in E as (t & w1 & _ & E).
    apply bind_inv_ok in E as (sib & w2 & _ & E).
    apply bind_inv_ok in E as (o & w3 & _ & E).
    destruct (_ && _); inversion E; subst; auto using wf_set.
  - inversion E; subst. assumption.
Qed.

(** Every record the collector returns has pairwise distinct keys. *)
Lemma _collect_detail_fields_wf : forall (w : W) data w',
  _collect_detail_fields w = (Ok data, w') -> wf data.
Proof.
  intros w data w' E. unfold _collect_detail_fields in E. cbv zeta in E.
  apply bind_inv_ok in E as (go & w1 & _ & E).
  apply bind_inv_ok in E as (d1 & w2 & E1 & E).
  assert (H1 : wf d1).
  { destruct go.
    - apply bind_inv_ok in E1 as (n & w1' & _ & E1).
      eapply (for_each_inv _ _ wf); [|apply wf_empty|exact E1].
      intros; eapply dt_dd_body_wf; eauto.
    - inversion E1; subst. apply wf_empty. }
  apply bind_inv_ok in E as (d2 & w3 & E2 & E).
  assert (H2 : wf d2).
  { destruct (negb (truthy d1)).
    - apply bind_inv_ok in E2 as (n & w2' & _ & E2).
      eapply (for_each_inv _ _ wf); [|exact H1|exact E2].
      intros; eapply two_col_body_wf; eauto.
    - inversion E2; subst. assumption. }
  apply bind_inv_ok in E as (d3 & w4 & E3 & E).
  inversion E; subst d3 w4.
  destruct (negb (truthy d2)).
  - apply bind_inv_ok in E3 as (n & w3' & _ & E3).
    eapply (for_each_inv _ _ wf); [|exact H2|exact E3].
    intros; eapply label_body_wf; eauto.
  - inversion E3; subst. assumption.
Qed.

Lemma detail_record_wf : forall (w : W) details w',
  detail_record w = (Ok details, w') -> wf details.
Proof.
  intros w details w' E. unfold detail_record in E.
  apply try_catch_inv_ok in E as [E|(e & w1 & _ & E)].
  - eapply _collect_detail_fields_wf; eauto.
  - inversion E; subst. apply wf_empty.
Qed.

End DetailCollector.

Lemma collect_first_strategy_wins_witness :
  fst (_collect_detail_fields (P := Sim.provider []) Sim.acme_page)
  = Ok [("Entity Number", "C1234567")]
  /\ ([("Entity Number", "C1234567")] <> []
      /\ term_definition_pairs (P := Sim.provider []) Sim.acme_page
         = (Ok [("Entity Number", "C1234567")], Sim.acme_page))
  /\ term_definition_pairs (P := Sim.provider []) Sim.blank_page
     = (Ok [], Sim.blank_page)
  /\ exists n wa n_dd wb n_dt,
       count (Provider := Sim.provider []) (Css "dt") Sim.acme_page
       = (Ok n, wa)
       /\ count (Provider := Sim.provider []) (Css "dd") wa = (Ok n_dd, wb)
       /\ count (Provider := Sim.provider []) (Css "dt") wb
          = (Ok n_dt, Sim.acme_page)
       /\ (0 < n)%nat /\ (n_dt <= n_dd)%nat.
Proof.
  split; [|split; [|split]].
  - destruct (collect_first_strategy_wins (P := Sim.provider [])
                Sim.acme_page) as (Heq & _ & _ & _).
    rewrite Heq. reflexivity.
  - destruct (collect_first_strategy_wins (P := Sim.provider [])
                Sim.acme_page) as (_ & Hone & _ & _).
    destruct (Hone [("Entity Number", "C1234567")] Sim.acme_page eq_refl)
      as [H1|[(w1 & H1 & _)|(w1 & w2 & H1 & _)]].
    + exact H1.
    + discriminate H1.
    + discriminate H1.
  - destruct (collect_first_strategy_wins (P := Sim.provider [])
                Sim.blank_page) as (_ & _ & Hskip & _).
    apply Hskip. reflexivity.
  - destruct (collect_first_strategy_wins (P := Sim.provider [])
                Sim.acme_page) as (_ & _ & _ & Hguard).
    apply Hguard. reflexivity.
Defined.

(** ** Merging *)




(** ** Computations that cannot raise *)

Section NeverRaises.
Context {W : Type} {P : Provider W}.

Lemma nr_ret : forall (A : Type) (a : A), never_raises (ret (W := W) a).
Proof. intros A a w. now exists a, w. Qed.

Lemma nr_bind : forall (A B : Type) (m : M W A) (f : A -> M W B),
  never_raises m -> (forall a, never_raises (f a)) ->
  never_raises (bind m f).
Proof.
  intros A B m f Hm Hf w. destruct (Hm w) as (a & w' & E).
  destruct (Hf a w') as (b & w'' & E').
  exists b, w''. now rewrite (bind_ok _ _ _ _ _ _ _ E).
Qed.

Lemma nr_try_catch : forall (A : Type) (m : M W A) (h : exn -> M W A),
  (forall e, never_raises (h e)) -> never_raises (try_catch m h).
Proof.
  intros A m h Hh w. unfold try_catch.
  destruct (m w) as [[a|e] w'].
  - now exists a, w'.
  - apply Hh.
Qed.

Lemma nr_for_each :
  forall (A S : Type) (body : A -> S -> M W S) (xs : list A) (s : S),
    (forall x s', never_raises (body x s')) ->
    never_raises (for_each xs body s).
Proof.
  intros A S body xs. induction xs as [|x xs IH]; intros s Hb; simpl.
  - apply nr_ret.
  - apply nr_bind; auto.
Qed.

Lemma nr_map_m : forall (A B : Type) (f : A -> M W B) (xs : list A),
  (forall x, never_raises (f x)) -> never_raises (map_m f xs).
Proof.
  intros A B f xs Hf. induction xs as [|x xs IH]; simpl.
  - apply nr_ret.
  - apply nr_bind; auto. intros y.
    apply nr_bind; auto. intros ys. apply nr_ret.
Qed.

End NeverRaises.

(** Decomposes a goal [never_raises m] along the structure of [m]. *)
Ltac nr_step :=
  match goal with
  | |- never_raises (ret _) => apply nr_ret
  | |- never_raises sleep => apply nr_ret
  | |- never_raises (try_catch _ _) => apply nr_try_catch; intros
  | |- never_raises (bind _ _) => apply nr_bind; intros
  | |- never_raises (for_each _ _ _) => apply nr_for_each; intros
  | |- never_raises (map_m _ _) => apply nr_map_m; intros
  | |- never_raises (if ?b then _ else _) => destruct b
  | |- never_raises (match ?x with _ => _ end) => destruct x
  | |- never_raises (let _ := _ in _) => cbv zeta
  | H : forall l, never_raises (count l) |- never_raises (count _) =>
      apply H
  end.

Ltac nr := repeat nr_step; auto.

Section Navigation.
Context {W : Type} {P : Provider W}.
Hypothesis count_total : forall l, never_raises (count l).

Lemma click_buttons_total : forall btns, never_raises (click_buttons btns).
Proof. induction btns as [|b btns IH]; simpl; nr. Qed.

Lemma _click_search_total : forall term, never_raises (_click_search term).
Proof.
  intros term. unfold _click_search, try_fill. nr.
  all: apply click_buttons_total.
Qed.

Lemma open_row_loop_total : forall sels row_idx,
  never_raises (open_row_loop sels row_idx).
Proof. induction sels as [|s sels IH]; intros row_idx; simpl; nr. Qed.

Lemma next_loop_total : forall selectors, never_raises (next_loop selectors).
Proof. induction selectors as [|s sels IH]; simpl; nr. Qed.

Lemma _click_next_total : never_raises _click_next.
Proof. unfold _click_next. nr. apply next_loop_total. Qed.

Lemma _safe_text_total : forall el, never_raises (_safe_text el).
Proof. intros. unfold _safe_text. nr. Qed.

Lemma table_row_body_total : forall trs i rows,
  never_raises (table_row_body trs i rows).
Proof.
  intros. unfold table_row_body. nr. all: apply _safe_text_total.
Qed.

Lemma rows_sel_loop_total : forall sels rows,
  never_raises (rows_sel_loop sels rows).
Proof.
  induction sels as [|s sels IH]; intros rows; simpl; nr.
  all: apply table_row_body_total.
Qed.

Lemma _extract_table_rows_total : never_raises _extract_table_rows.
Proof. apply rows_sel_loop_total. Qed.

End Navigation.

(** C7, the claim as stated fails: when the element-count query raises,
    each of the three actions raises. *)
Lemma navigation_raises_on_count_failure :
  fst (_click_search (P := Sim.provider [Sim.CCount]) "acme" Sim.acme_page)
  = Raise PlaywrightError
  /\ fst (_open_row_detail (P := Sim.provider [Sim.CCount]) 0 Sim.acme_page)
     = Raise PlaywrightError
  /\ fst (_click_next (P := Sim.provider [Sim.CCount]) Sim.acme_page)
     = Raise PlaywrightError.
Proof. repeat split; reflexivity. Qed.

(** C7 (amended): as long as element-count queries do not raise, the three
    actions return, whatever clicking, filling and key presses do:
    [_open_row_detail] and [_click_next] return a boolean, [_click_search]
    returns no value. *)
Theorem navigation_actions_return :
  forall (W : Type) (P : Provider W),
    (forall l, never_raises (count l)) ->
    forall (term : string) (row_idx : nat) (w : W),
      (exists w', _click_search term w = (Ok tt, w'))
      /\ (exists (b : bool) w', _open_row_detail row_idx w = (Ok b, w'))
      /\ (exists (b : bool) w', _click_next w = (Ok b, w')).
Proof.
  intros W P Hcount term row_idx w. repeat split.
  - destruct (_click_search_total Hcount term w) as ([] & w' & E).
    now exists w'.
  - apply (open_row_loop_total Hcount).
  - apply (_click_next_total Hcount).
Qed.

Lemma sim_count_total : forall failing,
  Sim.fails failing Sim.CCount = false ->
  forall l, never_raises (count (Provider := Sim.provider failing) l).
Proof.
  intros failing Hf l w. simpl. unfold Sim.sim_count. rewrite Hf.
  eexists. eexists. reflexivity.
Qed.

Lemma navigation_actions_return_witness :
  (exists w',
      _click_search (P := Sim.provider [Sim.CClick; Sim.CFill; Sim.CPress])
                    "acme" Sim.acme_page = (Ok tt, w'))
  /\ (exists (b : bool) w',
      _open_row_detail (P := Sim.provider [Sim.CClick; Sim.CFill; Sim.CPress])
                       0 Sim.acme_page = (Ok b, w'))
  /\ (exists (b : bool) w',
      _click_next (P := Sim.provider [Sim.CClick; Sim.CFill; Sim.CPress])
                  Sim.acme_page = (Ok b, w')).
Proof.
  apply (navigation_actions_return Sim.world
           (Sim.provider [Sim.CClick; Sim.CFill; Sim.CPress])).
  apply sim_count_total. reflexivity.
Defined.

(** ** The row loop *)

Section Rows.
Context {W : Type} {P : Provider W}.

Lemma detail_record_total : never_raises detail_record.
Proof. unfold detail_record. nr. Qed.

Lemma detail_open_fails_raises : forall idx w w',
  detail_open_fails idx w w' <-> exists e, open_detail idx w = (Raise e, w').
Proof.
  intros idx w w'. unfold detail_open_fails, open_detail, bind.
  destruct (_open_row_detail idx w) as [[[|]|e0] w1]; simpl; unfold raise.
  - split.
    + intros [(e & H)|[H|(w2 & e & H1 & H2)]]; try discriminate.
      inversion H1; subst w2. rewrite H2. now exists e.
    + intros (e & H). right. right.
      destruct (wait_navigation 12000 w1) as [[[]|e1] w2] eqn:Ew;
        [discriminate|].
      inversion H; subst. now exists w1, e.
  - split.
    + intros [(e & H)|[H|(w2 & e & H1 & H2)]]; try discriminate.
      inversion H; subst. eexists; reflexivity.
    + intros (e & H). inversion H; subst. auto.
  - split.
    + intros [(e & H)|[H|(w2 & e & H1 & H2)]]; try discriminate.
      inversion H; subst. eexists; reflexivity.
    + intros (e & H). inversion H; subst. left. eexists; reflexivity.
Qed.

Lemma row_body_open_failed : forall term idx base st w e w',
  open_detail idx w = (Raise e, w') ->
  row_body term idx base st w = (Ok (Continue, record_row base st), w').
Proof.
  intros * E. unfold row_body.
  rewrite (bind_ok _ _ _ _ _ _ _ (attempt_raise _ _ _ _ _ E)).
  reflexivity.
Qed.

Lemma below_cap : forall st max_records,
  (fetched st < max_records)%Z -> (fetched st >=? max_records)%Z = false.
Proof. intros. rewrite Z.geb_leb. apply Z.leb_gt. assumption. Qed.

Lemma rows_loop_cons : forall term max_records base rest idx st w f st' w',
  (fetched st >=? max_records)%Z = false ->
  row_body term idx base st w = (Ok (f, st'), w') ->
  rows_loop term max_records (base :: rest) idx st w
  = match f with
    | Continue => rows_loop term max_records rest (S idx) st' w'
    | Return => (Ok (Return, st'), w')
    end.
Proof.
  intros * Hcap E. simpl. rewrite Hcap.
  rewrite (bind_ok _ _ _ _ _ _ _ E). now destruct f.
Qed.

(** C6: when the detail-open step of a row fails (the action raises or
    reports failure, or the navigation wait times out) below the cap,
    the row's base record is appended as it is, [fetched] grows by
    exactly one, and the loop goes on with the next row of the page. *)
Theorem open_failure_keeps_base_record :
  forall term max_records base rest idx st w w',
    (fetched st < max_records)%Z ->
    detail_open_fails idx w w' ->
    row_body term idx base st w = (Ok (Continue, record_row base st), w')
    /\ rows_loop term max_records (base :: rest) idx st w
       = rows_loop term max_records rest (S idx) (record_row base st) w'
    /\ results (record_row base st) = results st ++ [base]
    /\ fetched (record_row base st) = (fetched st + 1)%Z.
Proof.
  intros * Hcap Hfail.
  apply detail_open_fails_raises in Hfail as (e & E).
  pose proof (row_body_open_failed term idx base st w e w' E) as Hbody.
  repeat split; auto.
  rewrite (rows_loop_cons _ _ _ _ _ _ _ _ _ _ (below_cap _ _ Hcap) Hbody).
  reflexivity.
Qed.

End Rows.

Lemma open_failure_keeps_base_record_witness :
  rows_loop (P := Sim.provider [Sim.CWaitNavigation]) "acme" 3
            [[("Name", "ACME LLC")]; [("Name", "ZETA INC")]] 0
            initial_session Sim.acme_page
  = rows_loop (P := Sim.provider [Sim.CWaitNavigation]) "acme" 3
              [[("Name", "ZETA INC")]] 1
              (record_row [("Name", "ACME LLC")] initial_session)
              (Sim.log_click (Nth Sim.tbody_tr 0) Sim.acme_page).
Proof.
  apply (open_failure_keeps_base_record
           (P := Sim.provider [Sim.CWaitNavigation])
           "acme" 3 [("Name", "ACME LLC")] [[("Name", "ZETA INC")]] 0
           initial_session Sim.acme_page
           (Sim.log_click (Nth Sim.tbody_tr 0) Sim.acme_page)).
  - simpl. lia.
  - right. right.
    exists (Sim.log_click (Nth Sim.tbody_tr 0) Sim.acme_page), TimeoutError.
    split; reflexivity.
Defined.

Section Session.
Context {W : Type} {P : Provider W}.
Variables (term : string) (max_records : Z).

Lemma row_body_records : forall idx base st w,
  exists f d w', row_body term idx base st w = (Ok (f, record_row d st), w').
Proof.
  intros idx base st w. unfold row_body.
  destruct (attempt_cases _ (open_detail idx) w)
    as [(a & w1 & _ & Ht)|(e & w1 & _ & Ht)];
    rewrite (bind_ok _ _ _ _ _ _ _ Ht); cbn [negb].
  - destruct (detail_record_total w1) as (details & w2 & Ed).
    rewrite (bind_ok _ _ _ _ _ _ _ Ed). cbv zeta.
    destruct (attempt_cases _ return_to_list w2)
      as [(a' & w3 & _ & Hb)|(e & w3 & _ & Hb)];
      rewrite (bind_ok _ _ _ _ _ _ _ Hb).
    + now exists Continue, (unpack2 base details), w3.
    + match goal with
      | |- context [try_catch (bind ?m _) _] =>
          destruct (attempt_cases _ m w3)
            as [(a' & w4 & _ & Hs)|(e' & w4 & _ & Hs)];
            rewrite (bind_ok _ _ _ _ _ _ _ Hs)
      end.
      * now exists Continue, (unpack2 base details), w4.
      * now exists Return, (unpack2 base details), w4.
  - now exists Continue, base, w1.
Qed.

Lemma rows_loop_records : forall page_dicts idx st w,
  exists f st' w' more,
    rows_loop term max_records page_dicts idx st w = (Ok (f, st'), w')
    /\ results st' = results st ++ more
    /\ fetched st' = (fetched st + Z.of_nat (List.length more))%Z
    /\ page_index st' = page_index st
    /\ ((fetched st <= max_records)%Z -> (fetched st' <= max_records)%Z)
    /\ ((fetched st < max_records)%Z -> page_dicts <> [] -> more <> []).
Proof.
  induction page_dicts as [|base rest IH]; intros idx st w.
  - exists Continue, st, w, []. simpl. rewrite app_nil_r, Z.add_0_r.
    repeat split; auto; congruence.
  - destruct (fetched st >=? max_records)%Z eqn:Hcap.
    + exists Continue, st, w, []. simpl. rewrite Hcap, app_nil_r, Z.add_0_r.
      repeat split; auto.
      rewrite Z.geb_leb in Hcap. apply Z.leb_le in Hcap. lia.
    + destruct (row_body_records idx base st w) as (f & d & w1 & Eb).
      rewrite (rows_loop_cons _ _ _ _ _ _ _ _ _ _ Hcap Eb).
      rewrite Z.geb_leb in Hcap. apply Z.leb_gt in Hcap.
      destruct f.
      * destruct (IH (S idx) (record_row d st) w1)
          as (f' & st' & w' & more & E & Hres & Hf & Hp & Hle & _).
        exists f', st', w', (d :: more). simpl in *.
        rewrite E, Hres, Hf, Hp, <- app_assoc.
        repeat split; auto; try lia; congruence.
      * exists Return, (record_row d st), w1, [d]. simpl.
        repeat split; auto; try lia; congruence.
Qed.

Lemma rows_loop_point : forall page_dicts idx st w f st' w',
  rows_loop term max_records page_dicts idx st w = (Ok (f, st'), w') ->
  session_point term max_records st ->
  session_point term max_records st'.
Proof.
  induction page_dicts as [|base rest IH]; intros idx st w f st' w' E Hpt.
  - simpl in E. inversion E; subst. assumption.
  - destruct (fetched st >=? max_records)%Z eqn:Hcap.
    + simpl in E. rewrite Hcap in E. inversion E; subst. assumption.
    + destruct (row_body_records idx base st w) as (f1 & d & w1 & Eb).
      rewrite (rows_loop_cons _ _ _ _ _ _ _ _ _ _ Hcap Eb) in E.
      pose proof (point_row _ _ _ _ _ _ _ _ _ Hpt Hcap Eb) as Hpt'.
      destruct f1.
      * eapply IH; eauto.
      * inversion E; subst. assumption.
Qed.

End Session.

Section Pages.
Context {W : Type} {P : Provider W}.
Variables (term : string) (max_records : Z) (table_headers : list string).

(** C10: when, below the cap, a row's detail view opened, the return to
    the list failed and the resync succeeded, the row loop goes on with
    the remaining base records of the page as they were extracted before
    the desync, and the records appended so far stay a prefix of what the
    loop returns. *)
Theorem resync_keeps_page_records :
  forall base rest idx st w w1 details w2 e w3 w4,
    (fetched st < max_records)%Z ->
    open_detail idx w = (Ok tt, w1) ->
    detail_record w1 = (Ok details, w2) ->
    return_to_list w2 = (Raise e, w3) ->
    resync term (page_index st) w3 = (Ok tt, w4) ->
    rows_loop term max_records (base :: rest) idx st w
    = rows_loop term max_records rest (S idx)
                (record_row (unpack2 base details) st) w4
    /\ exists f st' w' more,
         rows_loop term max_records (base :: rest) idx st w
         = (Ok (f, st'), w')
         /\ results st'
            = results st ++ [unpack2 base details] ++ more.
Proof.
  intros * Hcap Eopen Edet Eback Esync.
  assert (Ebody : row_body term idx base st w
                  = (Ok (Continue, record_row (unpack2 base details) st),
                     w4)).
  { unfold row_body.
    rewrite (bind_ok _ _ _ _ _ _ _ (attempt_ok _ _ _ _ _ Eopen)).
    cbn [negb].
    rewrite (bind_ok _ _ _ _ _ _ _ Edet). cbv zeta.
    rewrite (bind_ok _ _ _ _ _ _ _ (attempt_raise _ _ _ _ _ Eback)).
    cbn [page_index record_row].
    rewrite (bind_ok _ _ _ _ _ _ _ (attempt_ok _ _ _ _ _ Esync)).
    reflexivity. }
  rewrite (rows_loop_cons _ _ _ _ _ _ _ _ _ _ (below_cap _ _ Hcap) Ebody).
  split; [reflexivity|].
  destruct (rows_loop_records term max_records rest (S idx)
              (record_row (unpack2 base details) st) w4)
    as (f & st' & w' & more & E & Hres & _).
  exists f, st', w', more. split; [assumption|].
  rewrite Hres. simpl. now rewrite <- app_assoc.
Qed.

Lemma pages_loop_point : forall fuel st w st' w',
  pages_loop fuel term max_records table_headers st w
  = (Ok (Some st'), w') ->
  session_point term max_records st ->
  session_point term max_records st'
  /\ (fetched st <= fetched st')%Z.
Proof.
  induction fuel as [|fuel IH]; intros st w st' w' E Hpt.
  - discriminate.
  - simpl in E.
    apply bind_inv_ok in E as (rows_2d & w1 & _ & E).
    destruct rows_2d as [|r rows_2d].
    { inversion E; subst. split; [assumption|lia]. }
    apply bind_inv_ok in E as ([f st1] & w2 & Erows & E).
    pose proof (rows_loop_point _ _ _ _ _ _ _ _ _ Erows Hpt) as Hpt1.
    destruct (rows_loop_records term max_records
                (map (base_record table_headers) (r :: rows_2d)) 0 st w1)
      as (f' & st1' & w2' & more & E' & _ & Hf & _).
    rewrite Erows in E'. inversion E'; subst f' st1' w2'.
    assert (Hmono : (fetched st <= fetched st1)%Z) by lia.
    destruct f.
    + destruct (fetched st1 >=? max_records)%Z.
      { inversion E; subst. auto. }
      apply bind_inv_ok in E as (moved & w3 & _ & E).
      destruct moved; cbn [negb] in E.
      * apply bind_inv_ok in E as (u & w4 & Esl & E).
        apply IH in E as (Hpt' & Hle).
        -- split; [assumption|]. simpl in Hle. lia.
        -- now apply point_next_page.
      * inversion E; subst. auto.
    + inversion E; subst. auto.
Qed.

Lemma pages_loop_total :
  (forall l, never_raises (count l)) ->
  forall fuel st w,
    (Z.to_nat (max_records - fetched st) < fuel)%nat ->
    exists st' w',
      pages_loop fuel term max_records table_headers st w
      = (Ok (Some st'), w').
Proof.
  intros Hcount.
  induction fuel as [|fuel IH]; intros st w Hfuel; [lia|].
  simpl.
  destruct (_extract_table_rows_total Hcount w) as (rows_2d & w1 & Er).
  rewrite (bind_ok _ _ _ _ _ _ _ Er).
  destruct rows_2d as [|r rows_2d]; [now exists st, w1|].
  destruct (rows_loop_records term max_records
              (map (base_record table_headers) (r :: rows_2d)) 0 st w1)
    as (f & st1 & w2 & more & E & _ & Hf & _ & _ & Hmore).
  rewrite (bind_ok _ _ _ _ _ _ _ E).
  destruct f; [|now exists st1, w2].
  destruct (fetched st1 >=? max_records)%Z eqn:Hcap; [now exists st1, w2|].
  destruct (_click_next_total Hcount w2) as (moved & w3 & En).
  rewrite (bind_ok _ _ _ _ _ _ _ En).
  destruct moved; cbn [negb]; [|now exists st1, w3].
  unfold sleep. rewrite (bind_ok _ _ _ _ w3 tt w3 eq_refl).
  apply IH. simpl.
  rewrite Z.geb_leb in Hcap. apply Z.leb_gt in Hcap.
  assert (more <> []) by (apply Hmore; [lia|discriminate]).
  destruct more as [|d more]; [congruence|]. simpl List.length in Hf. lia.
Qed.

End Pages.

Lemma resync_keeps_page_records_witness :
  rows_loop (P := Sim.provider [Sim.CGoBack]) "acme" 3
            [[("Name", "ACME LLC")]; [("Name", "ZETA INC")]] 0
            initial_session Sim.acme_page
  = rows_loop (P := Sim.provider [Sim.CGoBack]) "acme" 3
              [[("Name", "ZETA INC")]] 1
              (record_row (unpack2 [("Name", "ACME LLC")]
                                   [("Entity Number", "C1234567")])
                          initial_session)
              (snd (resync (P := Sim.provider [Sim.CGoBack]) "acme" 1
                      (Sim.log_click (Nth Sim.tbody_tr 0) Sim.acme_page))).
Proof.
  apply (resync_keeps_page_records (P := Sim.provider [Sim.CGoBack])
           "acme" 3 [("Name", "ACME LLC")] [[("Name", "ZETA INC")]] 0
           initial_session Sim.acme_page
           (Sim.log_click (Nth Sim.tbody_tr 0) Sim.acme_page)
           [("Entity Number", "C1234567")]
           (Sim.log_click (Nth Sim.tbody_tr 0) Sim.acme_page)
           TimeoutError
           (Sim.log_click (Nth Sim.tbody_tr 0) Sim.acme_page)).
  - simpl. lia.
  - reflexivity.
  - reflexivity.
  - reflexivity.
  - reflexivity.
Defined.

(** ** The whole session *)

Section Scrape.
Context {W : Type} {P : Provider W}.

Lemma session_point_capped : forall term max_records st,
  (0 <= max_records)%Z ->
  session_point term max_records st ->
  (0 <= fetched st <= max_records)%Z
  /\ Z.of_nat (List.length (results st)) = fetched st.
Proof.
  intros term max_records st Hmax Hpt.
  induction Hpt as [|idx base st w f st' w' Hpt IH Hcap Eb|st Hpt IH].
  - simpl. lia.
  - destruct (row_body_records term idx base st w) as (f1 & d & w1 & Eb').
    rewrite Eb in Eb'. inversion Eb'; subst.
    rewrite Z.geb_leb in Hcap. apply Z.leb_gt in Hcap.
    simpl. rewrite length_app. simpl. lia.
  - simpl. assumption.
Qed.

Lemma scrape_inv_ok : forall fuel term max_records headless w recs hdrs w',
  scrape_businesses fuel term max_records headless w
  = (Ok (Some (recs, hdrs)), w') ->
  exists st, session_point term max_records st /\ results st = recs.
Proof.
  intros * E. unfold scrape_businesses in E.
  apply bind_inv_ok in E as (u0 & w0 & _ & E).
  apply try_finally_inv_ok in E as (w1 & E).
  apply bind_inv_ok in E as (u1 & w2 & _ & E).
  apply bind_inv_ok in E as (u2 & w3 & _ & E).
  apply bind_inv_ok in E as (u3 & w4 & _ & E).
  apply bind_inv_ok in E as (u4 & w5 & _ & E).
  apply bind_inv_ok in E as (u5 & w6 & _ & E).
  apply bind_inv_ok in E as (table_headers & w7 & _ & E).
  apply bind_inv_ok in E as (r & w8 & Ep & E).
  destruct r as [st|]; [|discriminate].
  inversion E; subst.
  exists st. split; [|reflexivity].
  eapply pages_loop_point; [exact Ep|constructor].
Qed.

Lemma headers_retry_total :
  (forall l, never_raises (count l)) ->
  forall attempts, never_raises (headers_retry attempts).
Proof.
  intros Hcount. induction attempts as [|n IH]; simpl; nr.
Qed.

Lemma dismiss_consent_total : never_raises dismiss_consent.
Proof. unfold dismiss_consent. nr. Qed.

End Scrape.

(** C2: with a non-negative cap, at every point of a session [fetched]
    lies between 0 and [max_records] and counts the records appended so
    far; every executed row body raises it by exactly one and a page
    advance leaves it alone; the row loop always returns, the page loop
    returns when it does not run out of iterations, and both lead from a
    session point to a session point with [fetched] no smaller; with
    element counts that do not raise and more iterations than the cap
    leaves room for, the page loop does return; and a session that returns
    hands back at most [max_records] records. *)
Theorem fetched_monotone_and_capped :
  forall (W : Type) (P : Provider W) (term : string) (max_records : Z),
    (0 <= max_records)%Z ->
    (forall st, session_point term max_records st ->
       (0 <= fetched st <= max_records)%Z
       /\ Z.of_nat (List.length (results st)) = fetched st)
    /\ (forall idx base st (w : W) f st' w',
          row_body term idx base st w = (Ok (f, st'), w') ->
          fetched st' = (fetched st + 1)%Z)
    /\ (forall st, fetched (next_page st) = fetched st)
    /\ (forall page_dicts idx st (w : W),
          session_point term max_records st ->
          exists f st' w',
            rows_loop term max_records page_dicts idx st w
            = (Ok (f, st'), w')
            /\ session_point term max_records st'
            /\ (fetched st <= fetched st' <= max_records)%Z)
    /\ (forall fuel st (w : W) table_headers st' w',
          session_point term max_records st ->
          pages_loop fuel term max_records table_headers st w
          = (Ok (Some st'), w') ->
          session_point term max_records st'
          /\ (fetched st <= fetched st' <= max_records)%Z)
    /\ ((forall l, never_raises (count l)) ->
        forall fuel st (w : W) table_headers,
          (Z.to_nat (max_records - fetched st) < fuel)%nat ->
          exists st' w',
            pages_loop fuel term max_records table_headers st w
            = (Ok (Some st'), w'))
    /\ (forall fuel headless (w : W) recs hdrs w',
          scrape_businesses fuel term max_records headless w
          = (Ok (Some (recs, hdrs)), w') ->
          (Z.of_nat (List.length recs) <= max_records)%Z).
Proof.
  intros W P term max_records Hmax.
  split; [|split; [|split; [|split; [|split; [|split]]]]].
  - intros st Hpt. now apply (session_point_capped term max_records).
  - intros idx base st w f st' w' E.
    destruct (row_body_records term idx base st w) as (f1 & d & w1 & Eb).
    rewrite E in Eb. inversion Eb; subst. reflexivity.
  - reflexivity.
  - intros page_dicts idx st w Hpt.
    destruct (rows_loop_records term max_records page_dicts idx st w)
      as (f & st' & w' & more & E & _ & Hf & _).
    exists f, st', w'. split; [assumption|].
    pose proof (rows_loop_point _ _ _ _ _ _ _ _ _ E Hpt) as Hpt'.
    split; [assumption|].
    destruct (session_point_capped term max_records st' Hmax Hpt').
    lia.
  - intros fuel st w table_headers st' w' Hpt E.
    destruct (pages_loop_point _ _ _ _ _ _ _ _ E Hpt) as (Hpt' & Hle).
    split; [assumption|].
    destruct (session_point_capped term max_records st' Hmax Hpt').
    lia.
  - intros Hcount fuel st w table_headers Hfuel.
    now apply pages_loop_total.
  - intros fuel headless w recs hdrs w' E.
    apply scrape_inv_ok in E as (st & Hpt & <-).
    destruct (session_point_capped term max_records st Hmax Hpt) as (Hb & Hl).
    lia.
Qed.

Lemma fetched_monotone_and_capped_witness :
  fst (scrape_businesses (P := Sim.provider []) 2 "acme" 1 true
                         Sim.acme_page)
  = Ok (Some ([[("Name", "ACME LLC"); ("Status", "Active");
                ("Entity Number", "C1234567")]],
              ["Name"; "Status"]))
  /\ (Z.of_nat (List.length [[("Name", "ACME LLC"); ("Status", "Active");
                              ("Entity Number", "C1234567")]]) <= 1)%Z
  /\ (0 <= fetched initial_session <= 1)%Z.
Proof.
  assert (Hcap : (0 <= 1)%Z) by lia.
  destruct (fetched_monotone_and_capped Sim.world (Sim.provider []) "acme" 1
              Hcap) as (Hpoint & _ & _ & _ & _ & _ & Hret).
  split; [reflexivity|split].
  - apply (Hret 2%nat true Sim.acme_page _ ["Name"; "Status"]
                (snd (scrape_businesses (P := Sim.provider []) 2 "acme" 1
                                        true Sim.acme_page))).
    reflexivity.
  - apply (Hpoint initial_session). constructor.
Defined.

(** C1, the claim as stated fails: when the first navigation to the search
    page times out, the exception leaves [scrape_businesses]. *)
Lemma scrape_raises_on_goto_timeout :
  fst (scrape_businesses (P := Sim.provider [Sim.CGoto]) 4 "acme" 3 true
                         Sim.acme_page)
  = Raise TimeoutError.
Proof. reflexivity. Qed.

(** C1 (amended): when the browser launch, the page setup and the first
    navigation succeed, element-count queries do not raise and closing the
    context and the browser succeeds, [scrape_businesses] returns a
    sequence of records and the header sequence, whatever every other
    provider call does at any point (clicks, fills, key presses, text
    reads, selector and navigation waits, back navigation, the navigation
    of the resync, script evaluation). *)
Theorem scrape_returns_records :
  forall (W : Type) (P : Provider W) (fuel : nat) (term : string)
         (max_records : Z) (headless : bool) (w0 w1 w2 w3 w4 : W),
    (Z.to_nat max_records < fuel)%nat ->
    launch_context headless w0 = (Ok tt, w1) ->
    new_page w1 = (Ok tt, w2) ->
    set_default_timeout 15000 w2 = (Ok tt, w3) ->
    goto SEARCH_URL w3 = (Ok tt, w4) ->
    (forall l, never_raises (count l)) ->
    never_raises close_context ->
    never_raises close_browser ->
    exists recs hdrs w',
      scrape_businesses fuel term max_records headless w0
      = (Ok (Some (recs, hdrs)), w').
Proof.
  intros W P fuel term max_records headless w0 w1 w2 w3 w4
         Hfuel El Ep Et Eg Hcount Hcc Hcb.
  unfold scrape_businesses.
  rewrite (bind_ok _ _ _ _ _ _ _ El).
  destruct (dismiss_consent_total w4) as ([] & w5 & Ed).
  destruct (_click_search_total Hcount term w5) as ([] & w6 & Es).
  destruct (headers_retry_total Hcount 3 w6) as (table_headers & w7 & Eh).
  destruct (pages_loop_total term max_records table_headers Hcount fuel
              initial_session w7) as (st & w8 & Epl).
  { simpl. rewrite Z.sub_0_r. exact Hfuel. }
  destruct (Hcc w8) as ([] & w9 & Ecc).
  destruct (Hcb w9) as ([] & w10 & Ecb).
  exists (results st), table_headers, w10.
  apply try_finally_ok with (w1 := w8).
  - rewrite (bind_ok _ _ _ _ _ _ _ Ep).
    rewrite (bind_ok _ _ _ _ _ _ _ Et).
    rewrite (bind_ok _ _ _ _ _ _ _ Eg).
    rewrite (bind_ok _ _ _ _ _ _ _ Ed).
    rewrite (bind_ok _ _ _ _ _ _ _ Es).
    rewrite (bind_ok _ _ _ _ _ _ _ Eh).
    rewrite (bind_ok _ _ _ _ _ _ _ Epl).
    reflexivity.
  - now rewrite (bind_ok _ _ _ _ _ _ _ Ecc).
Qed.

Lemma sim_plain_total : forall failing c,
  Sim.fails failing c = false -> never_raises (Sim.plain failing c).
Proof.
  intros failing c Hf w. unfold Sim.plain. rewrite Hf.
  exists tt, w. reflexivity.
Qed.

Lemma scrape_returns_records_witness :
  exists recs hdrs w',
    scrape_businesses
      (P := Sim.provider [Sim.CClick; Sim.CWaitSelector; Sim.CInnerText;
                          Sim.CGoBack; Sim.CWaitNavigation; Sim.CFill;
                          Sim.CPress; Sim.CEvaluate])
      4 "acme" 3 true Sim.acme_page
    = (Ok (Some (recs, hdrs)), w').
Proof.
  apply (scrape_returns_records Sim.world
           (Sim.provider [Sim.CClick; Sim.CWaitSelector; Sim.CInnerText;
                          Sim.CGoBack; Sim.CWaitNavigation; Sim.CFill;
                          Sim.CPress; Sim.CEvaluate])
           4%nat "acme" 3%Z true
           Sim.acme_page Sim.acme_page Sim.acme_page Sim.acme_page
           Sim.acme_page).
  - simpl. lia.
  - reflexivity.
  - reflexivity.
  - reflexivity.
  - reflexivity.
  - apply sim_count_total. reflexivity.
  - apply sim_plain_total. reflexivity.
  - apply sim_plain_total. reflexivity.
Defined.

(** ** Row indices of the extractor and of the opener *)

Section RowIndex.
Context {W : Type} {P : Provider W}.

(** The opener reports failure for an index at or beyond the row count
    of the first convention that matches a row. *)
Lemma open_row_out_of_range : forall sel sels row_idx w n w1 m w2,
  count (Css sel) w = (Ok n, w1) -> n <> 0%nat ->
  count (Css sel) w1 = (Ok m, w2) -> (m <= row_idx)%nat ->
  open_row_loop (sel :: sels) row_idx w = (Ok false, w2).
Proof.
  intros * E1 Hn E2 Hm. simpl.
  rewrite (bind_ok _ _ _ _ _ _ _ E1).
  apply Nat.eqb_neq in Hn. rewrite Hn.
  rewrite (bind_ok _ _ _ _ _ _ _ E2).
  apply Nat.leb_le in Hm. now rewrite Hm.
Qed.

End RowIndex.

(** C8, the opener and the extractor disagree on a page whose table body
    starts with the header row: the extractor skips row 0 of
    [table tbody tr] and builds its first row from row 1, while the opener
    called with index 0 clicks row 0. *)
Theorem open_row_targets_other_row :
  fst (_extract_table_rows (P := Sim.provider []) Sim.acme_page)
  = Ok [["ACME LLC"; "Active"]]
  /\ fst (table_row_body (P := Sim.provider []) Sim.tbody_tr 0 []
                         Sim.acme_page)
     = Ok []
  /\ fst (table_row_body (P := Sim.provider []) Sim.tbody_tr 1 []
                         Sim.acme_page)
     = Ok [["ACME LLC"; "Active"]]
  /\ _open_row_detail (P := Sim.provider []) 0 Sim.acme_page
     = (Ok true, Sim.log_click (Nth Sim.tbody_tr 0) Sim.acme_page).
Proof. repeat split; reflexivity. Qed.

(** * Further properties of the code *)

(** ** Trimming *)

Lemma lstrip_by_head : forall p l,
  match PyStr.lstrip_by p l with
  | [] => True
  | c :: _ => p c = false
  end.
Proof.
  induction l as [|c l IH]; simpl; auto.
  destruct (p c) eqn:E; simpl; auto.
Qed.

Lemma lstrip_by_fixed : forall p l,
  match l with [] => True | c :: _ => p c = false end ->
  PyStr.lstrip_by p l = l.
Proof. intros p [|c l] Hc; simpl; auto. now rewrite Hc. Qed.

Lemma lstrip_by_idem : forall p l,
  PyStr.lstrip_by p (PyStr.lstrip_by p l) = PyStr.lstrip_by p l.
Proof. intros. apply lstrip_by_fixed, lstrip_by_head. Qed.

Lemma rstrip_by_idem : forall p l,
  PyStr.rstrip_by p (PyStr.rstrip_by p l) = PyStr.rstrip_by p l.
Proof.
  intros. unfold PyStr.rstrip_by. now rewrite rev_involutive, lstrip_by_idem.
Qed.

Section StripSeq.
Variables (p1 : ascii -> bool) (p2 : ascii -> ascii -> bool)
          (p3 : ascii -> ascii -> ascii -> bool).

Lemma lstrip_seq_fixed : forall s,
  PyStr.at_seq p1 p2 p3 s = false -> PyStr.lstrip_seq p1 p2 p3 s = s.
Proof.
  intros [|c1 [|c2 [|c3 s]]]; simpl; auto.
  - destruct (p1 c1); simpl; [discriminate|auto].
  - destruct (p1 c1); simpl; [discriminate|].
    destruct (p2 c1 c2); simpl; [discriminate|auto].
  - destruct (p1 c1); simpl; [discriminate|].
    destruct (p2 c1 c2); simpl; [discriminate|].
    destruct (p3 c1 c2 c3); simpl; [discriminate|auto].
Qed.

Lemma lstrip_seq_bounded : forall n s,
  (List.length s <= n)%nat ->
  PyStr.at_seq p1 p2 p3 (PyStr.lstrip_seq p1 p2 p3 s) = false
  /\ exists d, s = d ++ PyStr.lstrip_seq p1 p2 p3 s.
Proof.
  induction n as [|n IH]; intros s Hn.
  - destruct s; [|simpl in Hn; lia]. split; [reflexivity|now exists []].
  - destruct s as [|c1 s1]; [split; [reflexivity|now exists []]|].
    simpl in Hn. cbn [PyStr.lstrip_seq].
    destruct (p1 c1) eqn:E1.
    { destruct (IH s1 ltac:(lia)) as (Ha & d & Hd).
      split; [assumption|]. exists (c1 :: d). simpl. now rewrite <- Hd. }
    destruct s1 as [|c2 s2].
    { split; [simpl; now rewrite E1|now exists []]. }
    simpl in Hn.
    destruct (p2 c1 c2) eqn:E2.
    { destruct (IH s2 ltac:(lia)) as (Ha & d & Hd).
      split; [assumption|]. exists (c1 :: c2 :: d). simpl. now rewrite <- Hd. }
    destruct s2 as [|c3 s3].
    { split; [simpl; now rewrite E1, E2|now exists []]. }
    simpl in Hn.
    destruct (p3 c1 c2 c3) eqn:E3.
    { destruct (IH s3 ltac:(lia)) as (Ha & d & Hd).
      split; [assumption|]. exists (c1 :: c2 :: c3 :: d). simpl.
      now rewrite <- Hd. }
    split; [simpl; now rewrite E1, E2, E3|now exists []].
Qed.

Lemma lstrip_seq_clear : forall s,
  PyStr.at_seq p1 p2 p3 (PyStr.lstrip_seq p1 p2 p3 s) = false.
Proof. intros s. apply (lstrip_seq_bounded (List.length s) s). lia. Qed.

Lemma lstrip_seq_suffix : forall s,
  exists d, s = d ++ PyStr.lstrip_seq p1 p2 p3 s.
Proof. intros s. apply (lstrip_seq_bounded (List.length s) s). lia. Qed.

Lemma lstrip_seq_idem : forall s,
  PyStr.lstrip_seq p1 p2 p3 (PyStr.lstrip_seq p1 p2 p3 s)
  = PyStr.lstrip_seq p1 p2 p3 s.
Proof. intros. apply lstrip_seq_fixed, lstrip_seq_clear. Qed.

Lemma at_seq_prefix : forall u v,
  PyStr.at_seq p1 p2 p3 (u ++ v) = false -> PyStr.at_seq p1 p2 p3 u = false.
Proof.
  intros [|c1 [|c2 [|c3 u]]] v; simpl; auto.
  - destruct (p1 c1); simpl; auto.
  - destruct (p1 c1); simpl; auto. destruct (p2 c1 c2); simpl; auto.
Qed.

Lemma lstrip_seq_prefix_fixed : forall u v,
  PyStr.lstrip_seq p1 p2 p3 (u ++ v) = u ++ v ->
  PyStr.lstrip_seq p1 p2 p3 u = u.
Proof.
  intros u v E. apply lstrip_seq_fixed. apply (at_seq_prefix u v).
  rewrite <- E. apply lstrip_seq_clear.
Qed.

End StripSeq.

Lemma rstrip_space_prefix : forall s,
  exists d, s = PyStr.rstrip_space s ++ d.
Proof.
  intros s. unfold PyStr.rstrip_space.
  destruct (lstrip_seq_suffix PyStr.isspace
              (fun a b => PyStr.isspace2 b a)
              (fun a b c => PyStr.isspace3 c b a) (rev s)) as (d & Hd).
  exists (rev d). rewrite <- rev_app_distr, <- Hd. now rewrite rev_involutive.
Qed.

Lemma rstrip_space_idem : forall s,
  PyStr.rstrip_space (PyStr.rstrip_space s) = PyStr.rstrip_space s.
Proof.
  intros. unfold PyStr.rstrip_space.
  now rewrite rev_involutive, lstrip_seq_idem.
Qed.

Lemma strip_idem : forall s, PyStr.strip (PyStr.strip s) = PyStr.strip s.
Proof.
  intros s. unfold PyStr.strip.
  rewrite list_ascii_of_string_of_list_ascii.
  set (t := PyStr.lstrip_space (list_ascii_of_string s)).
  assert (Hfix : PyStr.lstrip_space (PyStr.rstrip_space t)
                 = PyStr.rstrip_space t).
  { destruct (rstrip_space_prefix t) as (d & Hd).
    unfold PyStr.lstrip_space.
    apply (lstrip_seq_prefix_fixed _ _ _ _ d).
    rewrite <- Hd. unfold t, PyStr.lstrip_space. apply lstrip_seq_idem. }
  now rewrite Hfix, rstrip_space_idem.
Qed.

(** Unicode whitespace is trimmed like the ASCII one, and a row or a
    label made of it is dropped. *)
Lemma strip_unicode_space :
  PyStr.strip (nbsp ++ " ACME LLC" ++ nbsp)%string = "ACME LLC"
  /\ fst (_extract_table_rows (P := Sim.provider []) nbsp_page) = Ok []
  /\ fst (_extract_table_headers (P := Sim.provider []) nbsp_page) = Ok [].
Proof. repeat split; reflexivity. Qed.

(** ** What the Table Extractor returns *)

Section Extractor.
Context {W : Type} {P : Provider W}.

Lemma map_m_inv :
  forall (A B : Type) (Q : B -> Prop) (f : A -> M W B),
    (forall x w y w', f x w = (Ok y, w') -> Q y) ->
    forall xs w ys w', map_m f xs w = (Ok ys, w') -> Forall Q ys.
Proof.
  intros A B Q f Hf. induction xs as [|x xs IH]; intros w ys w' E; simpl in E.
  - inversion E; subst. constructor.
  - apply bind_inv_ok in E as (y & w1 & Ey & E).
    apply bind_inv_ok in E as (ys' & w2 & Eys & E).
    inversion E; subst. constructor; eauto.
Qed.

Lemma _safe_text_trimmed : forall el (w : W) t w',
  _safe_text el w = (Ok t, w') -> PyStr.strip t = t.
Proof.
  intros el w t w' E. unfold _safe_text in E.
  apply try_catch_inv_ok in E as [E|(e & w1 & _ & E)].
  - apply bind_inv_ok in E as (t0 & w1 & _ & E).
    inversion E; subst. apply strip_idem.
  - inversion E; subst. reflexivity.
Qed.

Lemma table_row_body_accepted : forall trs i rows (w : W) rows' w',
  Forall accepted rows ->
  table_row_body trs i rows w = (Ok rows', w') ->
  Forall accepted rows'.
Proof.
  intros trs i rows w rows' w' Hrows E. unfold table_row_body in E.
  cbv zeta in E.
  apply bind_inv_ok in E as (n_th & w1 & _ & E).
  apply bind_inv_ok in E as (rep & w2 & _ & E).
  destruct rep; [inversion E; subst; assumption|].
  apply bind_inv_ok in E as (n & w3 & _ & E).
  apply bind_inv_ok in E as (n' & w4 & _ & E).
  destruct (n' =? 0)%nat; [inversion E; subst; assumption|].
  apply bind_inv_ok in E as (m & w5 & _ & E).
  apply bind_inv_ok in E as (row & w6 & Erow & E).
  destruct (existsb _ row) eqn:Htext; inversion E; subst; [|assumption].
  apply Forall_app. split; [assumption|].
  constructor; [|constructor]. split; [exact Htext|].
  eapply map_m_inv; [|exact Erow].
  intros x w0 y w0' Ey. cbv beta in Ey.
  eapply _safe_text_trimmed; exact Ey.
Qed.

Lemma rows_sel_loop_accepted : forall sels rows (w : W) rows' w',
  Forall accepted rows ->
  rows_sel_loop sels rows w = (Ok rows', w') ->
  Forall accepted rows'.
Proof.
  induction sels as [|sel sels IH]; intros rows w rows' w' Hrows E;
    simpl in E.
  - inversion E; subst. assumption.
  - apply bind_inv_ok in E as (n & w1 & _ & E).
    destruct (n =? 0)%nat; [eapply IH; eauto|].
    apply bind_inv_ok in E as (m & w2 & _ & E).
    apply bind_inv_ok in E as (rows1 & w3 & Efor & E).
    assert (Forall accepted rows1).
    { eapply (for_each_inv _ _ (Forall accepted)); [|exact Hrows|exact Efor].
      intros; eapply table_row_body_accepted; eauto. }
    destruct rows1; [eapply IH; eauto|].
    inversion E; subst. assumption.
Qed.

Lemma has_text_cell : forall row,
  accepted row -> exists c, In c row /\ c <> "".
Proof.
  intros row (Htext & Htrim). unfold has_text in Htext.
  apply existsb_exists in Htext as (c & Hin & Hc).
  exists c. split; [assumption|].
  rewrite Forall_forall in Htrim. rewrite (Htrim c Hin) in Hc.
  intros ->. discriminate.
Qed.

(** X1: every row [_extract_table_rows] returns has a cell that is not
    blank, and every cell of it is trimmed; in particular no returned row
    is empty or all blank. *)
Theorem extracted_rows_have_text : forall (w : W) rows w',
  _extract_table_rows w = (Ok rows, w') ->
  Forall (fun row =>
            has_text row = true
            /\ Forall (fun c => PyStr.strip c = c) row
            /\ exists c, In c row /\ c <> "") rows.
Proof.
  intros w rows w' E.
  assert (Hacc : Forall accepted rows).
  { eapply rows_sel_loop_accepted; [constructor|exact E]. }
  rewrite Forall_forall in *. intros row Hin.
  destruct (Hacc row Hin) as (Ht & Hs).
  repeat split; auto. apply has_text_cell. now split.
Qed.

Lemma rows_sel_loop_one_convention : forall sels (w : W) rows w',
  rows_sel_loop sels [] w = (Ok rows, w') ->
  rows = []
  \/ exists sel m w1,
       In sel sels
       /\ for_each (range m) (table_row_body (Css sel)) [] w1
          = (Ok rows, w').
Proof.
  induction sels as [|sel sels IH]; intros w rows w' E; simpl in E.
  - inversion E; subst. now left.
  - apply bind_inv_ok in E as (n & w1 & _ & E).
    destruct (n =? 0)%nat.
    + apply IH in E as [->|(sel' & m & w2 & Hin & E)]; [now left|].
      right. exists sel', m, w2. split; [now right|assumption].
    + apply bind_inv_ok in E as (m & w2 & _ & E).
      apply bind_inv_ok in E as (rows1 & w3 & Efor & E).
      destruct rows1 as [|r rows1].
      * apply IH in E as [->|(sel' & m' & w4 & Hin & E)]; [now left|].
        right. exists sel', m', w4. split; [now right|assumption].
      * inversion E; subst. right. exists sel, m, w2.
        split; [now left|assumption].
Qed.

(** X2: the rows [_extract_table_rows] returns all come from one pass over
    a single row convention, started from an empty list: rows of different
    conventions are never mixed. *)
Theorem extracted_rows_one_convention : forall (w : W) rows w',
  _extract_table_rows w = (Ok rows, w') ->
  rows = []
  \/ exists sel m w1,
       In sel row_selectors
       /\ for_each (range m) (table_row_body (Css sel)) [] w1
          = (Ok rows, w').
Proof.
  intros w rows w' E.
  now apply (rows_sel_loop_one_convention row_selectors w).
Qed.

Lemma headers_loop_trimmed : forall sels headers (w : W) hs w',
  Forall (fun h => PyStr.strip h = h) headers ->
  headers_loop sels headers w = (Ok hs, w') ->
  Forall (fun h => PyStr.strip h = h) hs.
Proof.
  induction sels as [|sel sels IH]; intros headers w hs w' Hh E; simpl in E.
  - inversion E; subst. assumption.
  - apply bind_inv_ok in E as (n & w1 & _ & E).
    destruct (0 <? n)%nat; [|eapply IH; eauto].
    apply bind_inv_ok in E as (m & w2 & _ & E).
    apply bind_inv_ok in E as (hs1 & w3 & Emap & E).
    assert (Forall (fun h => PyStr.strip h = h) hs1).
    { eapply map_m_inv; [|exact Emap].
      intros x w0 y w0' Ey.
      apply bind_inv_ok in Ey as (t & w4 & _ & Ey).
      inversion Ey; subst. apply strip_idem. }
    destruct hs1; [eapply IH; eauto|].
    inversion E; subst. assumption.
Qed.

Lemma _extract_table_headers_labels : forall (w : W) hs w',
  _extract_table_headers w = (Ok hs, w') -> Forall label_ok hs.
Proof.
  intros w hs w' E. unfold _extract_table_headers in E.
  apply bind_inv_ok in E as (headers & w1 & Eloop & E).
  inversion E; subst.
  assert (Htrim : Forall (fun h => PyStr.strip h = h) headers)
    by (eapply headers_loop_trimmed; [constructor|exact Eloop]).
  rewrite Forall_forall in *. intros h Hin.
  apply filter_In in Hin as (Hin & Htruthy).
  split; [|now apply Htrim].
  intros ->. discriminate.
Qed.

(** X3: every label [_extract_table_headers] returns is non-empty and
    trimmed. *)
Theorem extracted_headers_nonblank : forall (w : W) hs w',
  _extract_table_headers w = (Ok hs, w') ->
  Forall (fun h => h <> "" /\ PyStr.strip h = h) hs.
Proof. intros w hs w' E. eapply _extract_table_headers_labels; eauto. Qed.

Lemma headers_phase_labels : forall attempts (w : W),
  exists hs w',
    headers_retry attempts w = (Ok hs, w') /\ Forall label_ok hs.
Proof.
  induction attempts as [|n IH]; intros w; simpl.
  - exists [], w. split; [reflexivity|constructor].
  - match goal with
    | |- context [try_catch ?m ?h] =>
        destruct (try_catch m h w) as [[r|e] w1] eqn:Etry
    end.
    + rewrite (bind_ok _ _ _ _ _ _ _ Etry).
      destruct r as [hs|].
      * exists hs, w1. split; [reflexivity|].
        apply try_catch_inv_ok in Etry as [E|(e & w2 & _ & E)];
          [|discriminate].
        apply bind_inv_ok in E as (u & w2 & _ & E).
        apply bind_inv_ok in E as (hs' & w3 & Eh & E).
        inversion E; subst.
        eapply _extract_table_headers_labels; eauto.
      * unfold sleep. rewrite (bind_ok _ _ _ _ w1 tt w1 eq_refl).
        apply IH.
    + exfalso. unfold try_catch in Etry.
      match type of Etry with
      | context [match ?m w with _ => _ end] =>
          destruct (m w) as [[r|e'] w2]; discriminate
      end.
Qed.

(** X4: the header phase of a session (its guarded attempts) returns for
    every behaviour of the provider, with labels that are non-empty and
    trimmed. *)
Theorem header_phase_returns : forall attempts (w : W),
  exists hs w',
    headers_retry attempts w = (Ok hs, w')
    /\ Forall (fun h => h <> "" /\ PyStr.strip h = h) hs.
Proof. intros attempts w. apply headers_phase_labels. Qed.

End Extractor.

(** ** Rows and pages of a session *)

Section SessionShape.
Context {W : Type} {P : Provider W}.
Variables (term : string) (max_records : Z) (table_headers : list string).

Lemma row_body_derived : forall idx base st (w : W),
  exists f d w',
    row_body term idx base st w = (Ok (f, record_row d st), w')
    /\ derived_from base d.
Proof.
  intros idx base st w. unfold row_body.
  destruct (attempt_cases _ (open_detail idx) w)
    as [(a & w1 & _ & Ht)|(e & w1 & _ & Ht)];
    rewrite (bind_ok _ _ _ _ _ _ _ Ht); cbn [negb].
  - destruct (detail_record_total w1) as (details & w2 & Ed).
    rewrite (bind_ok _ _ _ _ _ _ _ Ed). cbv zeta.
    assert (Hd : derived_from base (unpack2 base details)).
    { right. exists details. split; [|reflexivity].
      eapply detail_record_wf; eauto. }
    destruct (attempt_cases _ return_to_list w2)
      as [(a' & w3 & _ & Hb)|(e & w3 & _ & Hb)];
      rewrite (bind_ok _ _ _ _ _ _ _ Hb).
    + now exists Continue, (unpack2 base details), w3.
    + match goal with
      | |- context [try_catch (bind ?m _) _] =>
          destruct (attempt_cases _ m w3)
            as [(a' & w4 & _ & Hs)|(e' & w4 & _ & Hs)];
            rewrite (bind_ok _ _ _ _ _ _ _ Hs)
      end.
      * now exists Continue, (unpack2 base details), w4.
      * now exists Return, (unpack2 base details), w4.
  - exists Continue, base, w1. split; [reflexivity|now left].
Qed.

Lemma rows_loop_shape : forall page_dicts idx st (w : W),
  exists f st' w' more,
    rows_loop term max_records page_dicts idx st w = (Ok (f, st'), w')
    /\ results st' = results st ++ more
    /\ fetched st' = (fetched st + Z.of_nat (List.length more))%Z
    /\ Forall2 derived_from (firstn (List.length more) page_dicts) more
    /\ (f = Continue ->
        List.length more
        = Nat.min (List.length page_dicts)
                  (Z.to_nat (max_records - fetched st))).
Proof.
  induction page_dicts as [|base rest IH]; intros idx st w.
  - exists Continue, st, w, []. simpl. rewrite app_nil_r, Z.add_0_r.
    repeat split; auto; constructor.
  - destruct (fetched st >=? max_records)%Z eqn:Hcap.
    + exists Continue, st, w, []. simpl. rewrite Hcap, app_nil_r, Z.add_0_r.
      repeat split; auto; try constructor.
      rewrite Z.geb_leb in Hcap. apply Z.leb_le in Hcap.
      intros _. replace (Z.to_nat (max_records - fetched st)) with 0%nat by lia.
      reflexivity.
    + destruct (row_body_derived idx base st w) as (f & d & w1 & Eb & Hd).
      rewrite (rows_loop_cons _ _ _ _ _ _ _ _ _ _ Hcap Eb).
      rewrite Z.geb_leb in Hcap. apply Z.leb_gt in Hcap.
      destruct f.
      * destruct (IH (S idx) (record_row d st) w1)
          as (f' & st' & w' & more & E & Hres & Hfe & Hall & Hlen).
        exists f', st', w', (d :: more). simpl in *.
        rewrite E, Hres, Hfe, <- app_assoc.
        repeat split; auto; try lia.
        intros Hf. rewrite (Hlen Hf).
        replace (Z.to_nat (max_records - fetched st))
          with (S (Z.to_nat (max_records - (fetched st + 1)))) by lia.
        reflexivity.
      * exists Return, (record_row d st), w1, [d]. simpl.
        repeat split; auto; try lia; try discriminate.
Qed.

(** X5: the row loop always returns; the records it appends are derived,
    one each and in order, from the first rows of the page (the base
    record alone, or the base record overlaid with a detail record), and
    when the loop is not left by the [return] of a failed resync it has
    recorded every row up to the room the cap leaves. *)
Theorem rows_recorded_in_order : forall page_dicts idx st (w : W),
  exists f st' w' more,
    rows_loop term max_records page_dicts idx st w = (Ok (f, st'), w')
    /\ results st' = results st ++ more
    /\ Forall2 derived_from (firstn (List.length more) page_dicts) more
    /\ (f = Continue ->
        List.length more
        = Nat.min (List.length page_dicts)
                  (Z.to_nat (max_records - fetched st))).
Proof.
  intros page_dicts idx st w.
  destruct (rows_loop_shape page_dicts idx st w)
    as (f & st' & w' & more & E & Hres & _ & Hall & Hlen).
  now exists f, st', w', more.
Qed.

Lemma pages_loop_unfold : forall fuel st (w : W),
  pages_loop (S fuel) term max_records table_headers st w
  = (rows_2d <- _extract_table_rows ;;
     match rows_2d with
     | [] => ret (Some st)
     | _ :: _ =>
         r <- rows_loop term max_records
                (map (base_record table_headers) rows_2d) 0 st ;;
         match r with
         | (Return, st') => ret (Some st')
         | (Continue, st') =>
             if (fetched st' >=? max_records)%Z then ret (Some st')
             else
               moved <- _click_next ;;
               if negb moved then ret (Some st')
               else
                 sleep ;;
                 pages_loop fuel term max_records table_headers
                            (next_page st')
         end
     end) w.
Proof. reflexivity. Qed.

Lemma pages_loop_more_fuel : forall fuel st (w : W),
  (Z.to_nat (max_records - fetched st) < fuel)%nat ->
  pages_loop (S fuel) term max_records table_headers st w
  = pages_loop fuel term max_records table_headers st w.
Proof.
  induction fuel as [|fuel IH]; intros st w Hfuel; [lia|].
  rewrite (pages_loop_unfold (S fuel)), (pages_loop_unfold fuel).
  apply bind_ext. intros [|r rows_2d] w1; [reflexivity|].
  destruct (rows_loop_records term max_records
              (map (base_record table_headers) (r :: rows_2d)) 0 st w1)
    as (f & st1 & w2 & more & E & _ & Hf & _ & _ & Hmore).
  rewrite !(bind_ok _ _ _ _ _ _ _ E).
  destruct f; [|reflexivity].
  destruct (fetched st1 >=? max_records)%Z eqn:Hcap; [reflexivity|].
  apply bind_ext. intros [|] w3; cbn [negb]; [|reflexivity].
  apply bind_ext. intros _ w4.
  apply IH. simpl.
  rewrite Z.geb_leb in Hcap. apply Z.leb_gt in Hcap.
  assert (fetched st < max_records)%Z by lia.
  assert (more <> []) by (apply Hmore; [assumption|discriminate]).
  destruct more as [|d more]; [congruence|]. simpl List.length in Hf. lia.
Qed.

Lemma pages_loop_enough_fuel : forall extra fuel st (w : W),
  (Z.to_nat (max_records - fetched st) < fuel)%nat ->
  pages_loop (extra + fuel) term max_records table_headers st w
  = pages_loop fuel term max_records table_headers st w.
Proof.
  induction extra as [|extra IH]; intros fuel st w Hfuel; [reflexivity|].
  change (S extra + fuel)%nat with (S (extra + fuel)).
  rewrite pages_loop_more_fuel by lia. now apply IH.
Qed.

Lemma pages_loop_never_exhausted : forall fuel st (w : W) w',
  (Z.to_nat (max_records - fetched st) < fuel)%nat ->
  pages_loop fuel term max_records table_headers st w <> (Ok None, w').
Proof.
  induction fuel as [|fuel IH]; intros st w w' Hfuel E; [lia|].
  rewrite pages_loop_unfold in E.
  apply bind_inv_ok in E as ([|r rows_2d] & w1 & _ & E); [discriminate|].
  destruct (rows_loop_records term max_records
              (map (base_record table_headers) (r :: rows_2d)) 0 st w1)
    as (f & st1 & w2 & more & E1 & _ & Hf & _ & _ & Hmore).
  rewrite (bind_ok _ _ _ _ _ _ _ E1) in E.
  destruct f; [|discriminate].
  destruct (fetched st1 >=? max_records)%Z eqn:Hcap; [discriminate|].
  apply bind_inv_ok in E as ([|] & w3 & _ & E); cbn [negb] in E;
    [|discriminate].
  apply bind_inv_ok in E as (u & w4 & _ & E).
  apply IH in E; [assumption|]. simpl.
  rewrite Z.geb_leb in Hcap. apply Z.leb_gt in Hcap.
  assert (fetched st < max_records)%Z by lia.
  assert (more <> []) by (apply Hmore; [assumption|discriminate]).
  destruct more as [|d more]; [congruence|]. simpl List.length in Hf. lia.
Qed.

(** X6: when a page has at least as many accepted rows as the cap leaves
    room for, the page loop ends in the world the row loop leaves behind,
    so no pagination is attempted; unless the row loop was left by the
    [return] of a failed resync, [fetched] then equals the cap. *)
Theorem cap_reached_without_pagination :
  forall fuel st (w : W) rows_2d w1,
    _extract_table_rows w = (Ok rows_2d, w1) ->
    (fetched st < max_records)%Z ->
    (Z.to_nat (max_records - fetched st) <= List.length rows_2d)%nat ->
    exists f st' w2,
      rows_loop term max_records (map (base_record table_headers) rows_2d)
                0 st w1 = (Ok (f, st'), w2)
      /\ pages_loop (S fuel) term max_records table_headers st w
         = (Ok (Some st'), w2)
      /\ (f = Continue -> fetched st' = max_records).
Proof.
  intros fuel st w rows_2d w1 Erows Hcap Hlen.
  destruct (rows_loop_shape
              (map (base_record table_headers) rows_2d) 0 st w1)
    as (f & st' & w2 & more & E & _ & Hf & _ & Hmin).
  exists f, st', w2. split; [assumption|].
  assert (Hfull : f = Continue -> fetched st' = max_records).
  { intros Hc. rewrite Hf, (Hmin Hc), length_map. lia. }
  split; [|assumption].
  rewrite pages_loop_unfold, (bind_ok _ _ _ _ _ _ _ Erows).
  destruct rows_2d as [|r rows_2d]; [simpl in Hlen; lia|].
  rewrite (bind_ok _ _ _ _ _ _ _ E).
  destruct f; [|reflexivity].
  rewrite (Hfull eq_refl).
  replace (max_records >=? max_records)%Z with true; [reflexivity|].
  symmetry. rewrite Z.geb_leb. apply Z.leb_refl.
Qed.

End SessionShape.

(** ** Termination and cleanup of a session *)

Section SessionEnd.
Context {W : Type} {P : Provider W}.

Lemma try_finally_ext :
  forall (A : Type) (m m' : M W A) (fin : M W unit) w,
    (forall w0, m w0 = m' w0) ->
    try_finally m fin w = try_finally m' fin w.
Proof. intros * Hm. unfold try_finally. now rewrite Hm. Qed.

Lemma scrape_enough_fuel : forall extra fuel term max_records headless (w : W),
  (Z.to_nat max_records < fuel)%nat ->
  scrape_businesses (extra + fuel) term max_records headless w
  = scrape_businesses fuel term max_records headless w.
Proof.
  intros extra fuel term max_records headless w Hfuel.
  unfold scrape_businesses.
  apply bind_ext. intros _ w1.
  apply try_finally_ext. intros w2.
  apply bind_ext. intros _ w3.
  apply bind_ext. intros _ w4.
  apply bind_ext. intros _ w5.
  apply bind_ext. intros _ w6.
  apply bind_ext. intros _ w7.
  apply bind_ext. intros table_headers w8.
  unfold bind. rewrite pages_loop_enough_fuel; [reflexivity|].
  simpl. now rewrite Z.sub_0_r.
Qed.

Lemma scrape_never_exhausted :
  forall fuel term max_records headless (w : W) w',
    (Z.to_nat max_records < fuel)%nat ->
    scrape_businesses fuel term max_records headless w <> (Ok None, w').
Proof.
  intros fuel term max_records headless w w' Hfuel E.
  unfold scrape_businesses in E.
  apply bind_inv_ok in E as (u0 & w0 & _ & E).
  apply try_finally_inv_ok in E as (w1 & E).
  apply bind_inv_ok in E as (u1 & w2 & _ & E).
  apply bind_inv_ok in E as (u2 & w3 & _ & E).
  apply bind_inv_ok in E as (u3 & w4 & _ & E).
  apply bind_inv_ok in E as (u4 & w5 & _ & E).
  apply bind_inv_ok in E as (u5 & w6 & _ & E).
  apply bind_inv_ok in E as (table_headers & w7 & _ & E).
  apply bind_inv_ok in E as (r & w8 & Ep & E).
  destruct r as [st|]; [discriminate|].
  apply pages_loop_never_exhausted in Ep; [assumption|].
  simpl. now rewrite Z.sub_0_r.
Qed.

(** X7: the [while True] page loop ends within [max_records + 1]
    iterations (one iteration for a cap of zero or less), whatever the
    provider does: with that many iterations allowed the session never
    runs out of them, and allowing more does not change its outcome. *)
Theorem session_terminates :
  forall fuel term max_records headless (w : W),
    (Z.to_nat max_records < fuel)%nat ->
    scrape_businesses fuel term max_records headless w
    = scrape_businesses (S (Z.to_nat max_records)) term max_records
                        headless w
    /\ forall w',
         scrape_businesses fuel term max_records headless w
         <> (Ok None, w').
Proof.
  intros fuel term max_records headless w Hfuel. split.
  - replace fuel
      with ((fuel - S (Z.to_nat max_records))
            + S (Z.to_nat max_records))%nat by lia.
    apply scrape_enough_fuel. lia.
  - intros w'. now apply scrape_never_exhausted.
Qed.

(** X8: when closing the browser context fails, the session ends with an
    exception whatever it did before: collected records are not
    returned. *)
Theorem close_failure_discards_records :
  (forall w : W, exists e w', close_context w = (Raise e, w')) ->
  forall fuel term max_records headless (w : W) r w',
    scrape_businesses fuel term max_records headless w = (r, w') ->
    exists e, r = Raise e.
Proof.
  intros Hclose fuel term max_records headless w r w' E.
  unfold scrape_businesses in E. unfold bind at 1 in E.
  destruct (launch_context headless w) as [[u|e] w1].
  - unfold try_finally in E.
    match type of E with
    | context [match ?body w1 with _ => _ end] =>
        destruct (body w1) as [r1 w2]
    end.
    destruct (Hclose w2) as (e & w3 & Ec).
    rewrite (bind_raise_eq _ _ _ _ _ _ _ Ec) in E.
    inversion E; subst. now exists e.
  - inversion E; subst. now exists e.
Qed.

(** X9: a success flag is never invented: when no click succeeds,
    [_open_row_detail] and [_click_next] return [False] whenever they
    return, also when the PageDown key press of the fallback succeeds. *)
Theorem success_flag_needs_click :
  (forall l t (w : W), exists e w', click l t w = (Raise e, w')) ->
  forall row_idx (w : W) b w',
    (_open_row_detail row_idx w = (Ok b, w') -> b = false)
    /\ (_click_next w = (Ok b, w') -> b = false).
Proof.
  intros Hclick row_idx w b w'. split.
  - unfold _open_row_detail. generalize row_selectors w.
    induction l as [|sel sels IH]; intros w0 E; simpl in E.
    + now inversion E.
    + apply bind_inv_ok in E as (n & w1 & _ & E).
      destruct (n =? 0)%nat; [eapply IH; eauto|].
      apply bind_inv_ok in E as (m & w2 & _ & E).
      destruct (m <=? row_idx)%nat; [now inversion E|].
      apply try_catch_inv_ok in E as [E|(e & w3 & _ & E)];
        [|now inversion E].
      apply bind_inv_ok in E as (c & w3 & _ & E).
      apply bind_inv_ok in E as (u & w4 & Ec & _).
      exfalso. destruct (0 <? c)%nat.
      * destruct (Hclick (First (Within (Nth (Css sel) row_idx) "a"))
                         4000%Z w3) as (e & w5 & Hc). congruence.
      * destruct (Hclick (Nth (Css sel) row_idx) 4000%Z w3)
          as (e & w5 & Hc). congruence.
  - unfold _click_next. intros E.
    apply bind_inv_ok in E as (clicked & w1 & Eloop & E).
    assert (clicked = false).
    { clear E. revert w Eloop.
      match goal with
      | |- forall w, next_loop ?sels w = _ -> _ => generalize sels
      end.
      induction l as [|sel sels IH]; intros w0 E; simpl in E.
      - now inversion E.
      - apply bind_inv_ok in E as (n & w2 & _ & E).
        destruct (0 <? n)%nat; [|eapply IH; eauto].
        apply bind_inv_ok in E as (ok & w3 & Etry & E).
        apply try_catch_inv_ok in Etry as [Etry|(e & w4 & _ & Etry)].
        + apply bind_inv_ok in Etry as (u & w4 & Ec & _).
          destruct (Hclick (First (Css sel)) 2000%Z w2) as (e & w5 & Hc).
          congruence.
        + inversion Etry; subst. eapply IH; eauto. }
    subst clicked.
    apply bind_inv_ok in E as (u & w2 & _ & E). now inversion E.
Qed.

End SessionEnd.

(** ** Keys and lookups of records *)






Lemma get_combine_nth : forall (K V : list string) (i : nat),
  NoDup K -> List.length K = List.length V -> (i < List.length K)%nat ->
  get (combine K V) (nth i K "") = Some (nth i V "").
Proof.
  induction K as [|k K IH]; intros [|v V] i Hnd Hlen Hi; simpl in *;
    try lia; try discriminate.
  inversion Hnd as [|? ? Hnotin Hnd']; subst.
  destruct i as [|i].
  - now rewrite String.eqb_refl.
  - destruct (String.eqb (nth i K "") k) eqn:E.
    + apply String.eqb_eq in E. exfalso. apply Hnotin. rewrite <- E.
      apply nth_In. lia.
    + apply IH; auto; lia.
Qed.

Lemma nth_col_names : forall n i,
  (i < n)%nat ->
  nth i (col_names n) "" = ("col_" ++ PyStr.of_nat (i + 1))%string.
Proof.
  intros n i Hi. unfold col_names.
  rewrite (nth_indep _ "" (("col_" ++ PyStr.of_nat 0)%string))
    by now rewrite length_map, length_seq.
  rewrite (map_nth (fun j => ("col_" ++ PyStr.of_nat j)%string)).
  rewrite seq_nth by assumption. now rewrite Nat.add_comm.
Qed.

(** X11: a base record gives back the row it was built from: under a
    header sequence of the row's length without repeated labels the cell
    at position [i] is found under the label at position [i]; when the
    lengths differ it is found under [col_(i+1)]; and a key that is not
    among the record's keys is not found. *)
Theorem base_record_lookup : forall (H R : list string) (i : nat),
  (i < List.length R)%nat ->
  (List.length R = List.length H -> NoDup H ->
     get (base_record H R) (nth i H "") = Some (nth i R ""))
  /\ (List.length R <> List.length H ->
     get (base_record H R) ("col_" ++ PyStr.of_nat (i + 1))%string
     = Some (nth i R ""))
  /\ (forall k, ~ In k (keys (base_record H R)) ->
                get (base_record H R) k = None).
Proof.
  intros H R i Hi. split; [|split].
  - intros E Hnd. unfold base_record.
    destruct H as [|h H']; [simpl in E; lia|].
    rewrite E, Nat.eqb_refl. simpl andb. cbv iota.
    rewrite header_keyed_combine by assumption.
    apply get_combine_nth; auto; congruence.
  - intros Hne. unfold base_record.
    apply Nat.eqb_neq in Hne. rewrite Hne, andb_false_r.
    rewrite col_keyed_combine.
    rewrite <- (nth_col_names (List.length R)) by assumption.
    apply get_combine_nth.
    + apply col_names_NoDup.
    + apply length_col_names.
    + now rewrite length_col_names.
  - intros k Hk. now apply get_none_notin.
Qed.

(** ** The CSV table *)

Lemma In_insert_sorted : forall k l x,
  In x (insert_sorted k l) <-> x = k \/ In x l.
Proof.
  induction l as [|y l IH]; intros x; simpl.
  - intuition.
  - destruct (String.leb k y); simpl; [intuition|].
    rewrite IH. intuition.
Qed.

Lemma In_sorted : forall l x, In x (sorted l) <-> In x l.
Proof.
  induction l as [|y l IH]; intros x; simpl; [tauto|].
  rewrite In_insert_sorted, IH. intuition.
Qed.

Lemma ltb_lt : forall a b,
  String.ltb a b = true <-> OrderedTypeEx.String_as_OT.lt a b.
Proof.
  intros a b. rewrite <- OrderedTypeEx.String_as_OT.cmp_lt.
  unfold String.ltb, OrderedTypeEx.String_as_OT.cmp.
  destruct (String.compare a b); split; intros E;
    try discriminate E; reflexivity.
Qed.

Lemma ltb_trans : forall a b c,
  String.ltb a b = true -> String.ltb b c = true -> String.ltb a c = true.
Proof.
  intros a b c. rewrite !ltb_lt.
  apply OrderedTypeEx.String_as_OT.lt_trans.
Qed.

Lemma ltb_irrefl : forall a, String.ltb a a = false.
Proof.
  intros a. destruct (String.ltb a a) eqn:E; [|reflexivity].
  apply ltb_lt in E.
  apply OrderedTypeEx.String_as_OT.lt_not_eq in E.
  exfalso. apply E. reflexivity.
Qed.

Lemma leb_false_ltb : forall a b,
  String.leb a b = false -> String.ltb b a = true.
Proof.
  intros a b. unfold String.leb, String.ltb.
  rewrite (String.compare_antisym b a).
  destruct (String.compare a b); simpl; congruence.
Qed.

Lemma leb_neq_ltb : forall a b,
  String.leb a b = true -> a <> b -> String.ltb a b = true.
Proof.
  intros a b Hle Hne. unfold String.leb, String.ltb in *.
  destruct (String.compare a b) eqn:E; try congruence.
  apply String.compare_eq_iff in E. contradiction.
Qed.

Lemma insert_sorted_strict : forall k l,
  strictly_sorted l -> ~ In k l -> strictly_sorted (insert_sorted k l).
Proof.
  unfold strictly_sorted.
  induction l as [|x l IH]; intros Hs Hk; simpl.
  - repeat constructor.
  - inversion Hs as [|? ? Hs' Hall]; subst.
    assert (Hne : k <> x) by (intros ->; apply Hk; now left).
    destruct (String.leb k x) eqn:E.
    + constructor; [assumption|].
      pose proof (leb_neq_ltb _ _ E Hne) as Hkx.
      constructor; [assumption|].
      rewrite Forall_forall in *. intros y Hy.
      eapply ltb_trans; eauto.
    + constructor.
      * apply IH; [assumption|]. intros Hin. apply Hk. now right.
      * rewrite Forall_forall in *. intros y Hy.
        apply In_insert_sorted in Hy as [->|Hy]; auto.
        now apply leb_false_ltb.
Qed.

Lemma sorted_strict : forall l, NoDup l -> strictly_sorted (sorted l).
Proof.
  induction 1 as [|x l Hx Hl IH]; simpl.
  - constructor.
  - apply insert_sorted_strict; [assumption|].
    now rewrite In_sorted.
Qed.

Lemma strictly_sorted_unique : forall l1 l2,
  strictly_sorted l1 -> strictly_sorted l2 ->
  (forall k, In k l1 <-> In k l2) -> l1 = l2.
Proof.
  unfold strictly_sorted.
  induction l1 as [|a l1 IH]; intros [|b l2] H1 H2 Hsame.
  - reflexivity.
  - exfalso. apply (proj2 (Hsame b)). now left.
  - exfalso. apply (proj1 (Hsame a)). now left.
  - inversion H1 as [|? ? H1' Ha]; inversion H2 as [|? ? H2' Hb]; subst.
    rewrite Forall_forall in Ha, Hb.
    assert (a = b).
    { destruct (proj1 (Hsame a) (or_introl eq_refl)) as [E|Hin]; [auto|].
      destruct (proj2 (Hsame b) (or_introl eq_refl)) as [E|Hin']; [auto|].
      pose proof (ltb_trans _ _ _ (Ha _ Hin') (Hb _ Hin)) as Haa.
      rewrite ltb_irrefl in Haa. discriminate. }
    subst b. f_equal. apply IH; auto.
    intros k. split; intros Hk.
    + destruct (proj1 (Hsame k) (or_intror Hk)) as [E|Hin]; [|assumption].
      subst k. pose proof (Ha _ Hk) as Haa.
      rewrite ltb_irrefl in Haa. discriminate.
    + destruct (proj2 (Hsame k) (or_intror Hk)) as [E|Hin]; [|assumption].
      subst k. pose proof (Hb _ Hk) as Haa.
      rewrite ltb_irrefl in Haa. discriminate.
Qed.

Lemma In_key_set : forall rows k,
  In k (key_set rows) <-> exists row, In row rows /\ In k (keys row).
Proof.
  intros rows k. unfold key_set. rewrite nodup_In, in_flat_map. tauto.
Qed.

Lemma In_fieldnames : forall rows k,
  In k (fieldnames rows) <-> exists row, In row rows /\ In k (keys row).
Proof.
  intros [|r rows] k.
  - simpl. split; [tauto|]. intros (row & [] & _).
  - unfold fieldnames. rewrite In_sorted. apply In_key_set.
Qed.

Lemma fieldnames_strict : forall rows, strictly_sorted (fieldnames rows).
Proof.
  intros [|r rows]; [constructor|].
  unfold fieldnames. apply sorted_strict. apply NoDup_nodup.
Qed.

(** X12: the column names [write_csv] uses are exactly the keys that occur
    in some row, each once, in strictly increasing order (none for no
    rows); the list does not depend on the order in which the set of keys
    is enumerated. *)
Theorem fieldnames_sorted_union : forall rows : list dict,
  strictly_sorted (fieldnames rows)
  /\ (forall k, In k (fieldnames rows)
                <-> exists row, In row rows /\ In k (keys row))
  /\ (forall l, NoDup l ->
                (forall k, In k l
                           <-> exists row, In row rows /\ In k (keys row)) ->
                sorted l = fieldnames rows).
Proof.
  intros rows. split; [apply fieldnames_strict|].
  split; [apply In_fieldnames|].
  intros l Hnd Hl. apply strictly_sorted_unique.
  - now apply sorted_strict.
  - apply fieldnames_strict.
  - intros k. now rewrite In_sorted, Hl, In_fieldnames.
Qed.





(** ** The HTTP handler *)

Section SearchHandler.
Context {W : Type} {P : Provider W} {H : Host W}.

Lemma guarded_choice : forall (A B : Type) (m : M W A) (a b : B) (w : W),
  exists x w',
    try_catch (m ;; ret a) (fun _ => ret b) w = (Ok x, w')
    /\ (x = a \/ x = b).
Proof.
  intros. unfold try_catch, bind, ret.
  destruct (m w) as [[y|e] w1].
  - exists a, w1. auto.
  - exists b, w1. auto.
Qed.

Lemma search_after_return :
  forall fuel term limit headless (w : W) rows headers w1,
    scrape_businesses fuel term limit headless w
    = (Ok (Some (rows, headers)), w1) ->
    exists csv w',
      search fuel term limit headless w
      = (Ok (Some {| p_term := term;
                     p_count := Z.of_nat (List.length rows);
                     p_limit := limit;
                     p_table_headers := headers;
                     p_csv_file := csv;
                     p_data := rows;
                     p_error := None |}), w').
Proof.
  intros * E. unfold search.
  match goal with
  | |- context [bind ?A ?K w] =>
      assert (EA : A w = (Ok (Some (rows, headers, None)), w1))
        by (unfold try_catch, bind; rewrite E; reflexivity);
      rewrite (bind_ok _ _ A K w _ _ EA)
  end.
  cbv beta iota.
  rewrite (bind_ok _ _ clock _ w1 (now_stamp w1) w1 eq_refl).
  match goal with
  | |- context [try_catch (bind ?m (fun _ => ret ?a)) ?h] =>
      destruct (guarded_choice _ _ m a CurrentDir w1)
        as (x & w2 & Ex & _)
  end.
  rewrite (bind_ok _ _ _ _ _ _ _ Ex).
  eexists. eexists. reflexivity.
Qed.

Lemma search_after_raise :
  forall fuel term limit headless (w : W) e w1,
    scrape_businesses fuel term limit headless w = (Raise e, w1) ->
    exists csv w',
      search fuel term limit headless w
      = (Ok (Some {| p_term := term;
                     p_count := 0;
                     p_limit := limit;
                     p_table_headers := [];
                     p_csv_file := csv;
                     p_data := [];
                     p_error := if PyStr.truthy (str_exn e)
                                then Some (str_exn e) else None |}), w').
Proof.
  intros * E. unfold search.
  match goal with
  | |- context [bind ?A ?K w] =>
      assert (EA : A w = (Ok (Some ([], [], Some (str_exn e))), w1))
        by (unfold try_catch, bind; rewrite E; reflexivity);
      rewrite (bind_ok _ _ A K w _ _ EA)
  end.
  cbv beta iota.
  rewrite (bind_ok _ _ clock _ w1 (now_stamp w1) w1 eq_refl).
  match goal with
  | |- context [try_catch (bind ?m (fun _ => ret ?a)) ?h] =>
      destruct (guarded_choice _ _ m a CurrentDir w1)
        as (x & w2 & Ex & _)
  end.
  rewrite (bind_ok _ _ _ _ _ _ _ Ex).
  destruct (PyStr.truthy (str_exn e)); eexists; eexists; reflexivity.
Qed.

(** X14: the handler always answers: with as many page iterations allowed
    as the limit can need, [search] returns a payload for every behaviour
    of the provider and of the file system, and the payload's [count] is
    the number of records in its [data]. *)
Theorem search_always_answers :
  forall fuel term limit headless (w : W),
    (Z.to_nat limit < fuel)%nat ->
    exists payload w',
      search fuel term limit headless w = (Ok (Some payload), w')
      /\ p_term payload = term
      /\ p_limit payload = limit
      /\ p_count payload = Z.of_nat (List.length (p_data payload)).
Proof.
  intros fuel term limit headless w Hfuel.
  destruct (scrape_businesses fuel term limit headless w)
    as [[[[rows headers]|]|e] w1] eqn:E.
  - destruct (search_after_return _ _ _ _ _ _ _ _ E) as (csv & w' & Es).
    eexists. exists w'. split; [exact Es|]. auto.
  - exfalso. eapply scrape_never_exhausted; eauto.
  - destruct (search_after_raise _ _ _ _ _ _ _ E) as (csv & w' & Es).
    eexists. exists w'. split; [exact Es|]. auto.
Qed.

(** X15: when the scrape raises, the handler answers with no record, no
    header and a count of zero, also when records had been collected; the
    payload carries the exception's message as [error] unless the message
    is empty, in which case it carries no [error]. *)
Theorem search_error_payload :
  forall fuel term limit headless (w : W) e w1,
    scrape_businesses fuel term limit headless w = (Raise e, w1) ->
    exists payload w',
      search fuel term limit headless w = (Ok (Some payload), w')
      /\ p_data payload = []
      /\ p_table_headers payload = []
      /\ p_count payload = 0%Z
      /\ p_error payload = (if PyStr.truthy (str_exn e)
                            then Some (str_exn e) else None).
Proof.
  intros * E.
  destruct (search_after_raise _ _ _ _ _ _ _ E) as (csv & w' & Es).
  eexists. exists w'. split; [exact Es|]. auto.
Qed.

(** X16: when the scrape returns, the handler answers with its records
    and headers, without [error], whether or not the CSV file could be
    written; for a limit of zero or more the [count] is at most the
    limit. *)
Theorem search_success_payload :
  forall fuel term limit headless (w : W) rows headers w1,
    scrape_businesses fuel term limit headless w
    = (Ok (Some (rows, headers)), w1) ->
    exists payload w',
      search fuel term limit headless w = (Ok (Some payload), w')
      /\ p_data payload = rows
      /\ p_table_headers payload = headers
      /\ p_error payload = None
      /\ p_count payload = Z.of_nat (List.length rows)
      /\ ((0 <= limit)%Z -> (p_count payload <= limit)%Z).
Proof.
  intros * E.
  destruct (search_after_return _ _ _ _ _ _ _ _ E) as (csv & w' & Es).
  eexists. exists w'. split; [exact Es|]. cbn.
  repeat split; auto.
  intros Hlimit.
  apply scrape_inv_ok in E as (st & Hpt & <-).
  destruct (session_point_capped term limit st Hlimit Hpt) as (Hb & Hl).
  lia.
Qed.

(** X17: when [write_csv] fails, the payload names the current directory
    ["."] as its [csv_file]. *)
Theorem search_csv_failure :
  (forall rows p (w : W), exists e w', write_csv rows p w = (Raise e, w')) ->
  forall fuel term limit headless (w : W) payload w',
    search fuel term limit headless w = (Ok (Some payload), w') ->
    p_csv_file payload = Some ".".
Proof.
  intros Hcsv fuel term limit headless w payload w' E.
  unfold search in E.
  apply bind_inv_ok in E as ([[[rows headers] error_msg]|] & w1 & _ & E);
    [|discriminate].
  apply bind_inv_ok in E as (ts & w2 & _ & E).
  apply bind_inv_ok in E as (csv_path & w3 & Ecsv & E).
  assert (csv_path = CurrentDir).
  { apply try_catch_inv_ok in Ecsv as [Ecsv|(e & w4 & _ & Ecsv)].
    - apply bind_inv_ok in Ecsv as (u & w4 & Ew & _).
      destruct (Hcsv rows (ResultsFile term ts) w2) as (e & w6 & Hm).
      congruence.
    - now inversion Ecsv. }
  subst csv_path. cbn in E.
  destruct error_msg as [msg|]; [destruct (PyStr.truthy msg)|];
    inversion E; subst; reflexivity.
Qed.

End SearchHandler.

(** ** Records of a whole session *)

Section SessionRecords.
Context {W : Type} {P : Provider W}.
Variables (term : string) (max_records : Z) (table_headers : list string).

(** X18: the page loop only appends: the records it returns start with
    the records it was given, unchanged and in order, and the page index
    never decreases. *)
Theorem records_only_appended : forall fuel st (w : W) st' w',
  pages_loop fuel term max_records table_headers st w
  = (Ok (Some st'), w') ->
  (exists more, results st' = results st ++ more)
  /\ (page_index st <= page_index st')%Z.
Proof.
  induction fuel as [|fuel IH]; intros st w st' w' E; [discriminate|].
  rewrite pages_loop_unfold in E.
  apply bind_inv_ok in E as ([|r rows_2d] & w1 & _ & E).
  { inversion E; subst. split; [exists []; now rewrite app_nil_r|lia]. }
  destruct (rows_loop_records term max_records
              (map (base_record table_headers) (r :: rows_2d)) 0 st w1)
    as (f & st1 & w2 & more & E1 & Hres & _ & Hp & _).
  rewrite (bind_ok _ _ _ _ _ _ _ E1) in E.
  assert (Hhere : (exists more0, results st1 = results st ++ more0)
                  /\ (page_index st <= page_index st1)%Z).
  { split; [now exists more|lia]. }
  destruct f; [|inversion E; subst; assumption].
  destruct (fetched st1 >=? max_records)%Z;
    [inversion E; subst; assumption|].
  apply bind_inv_ok in E as ([|] & w3 & _ & E); cbn [negb] in E;
    [|inversion E; subst; assumption].
  apply bind_inv_ok in E as (u & w4 & _ & E).
  apply IH in E as ((more' & Hres') & Hp').
  simpl in Hres', Hp'. split.
  - exists (more ++ more'). now rewrite Hres', Hres, app_assoc.
  - lia.
Qed.

End SessionRecords.

(** ** Keys of detail records *)

Lemma rstrip_colon_idem : forall s,
  PyStr.rstrip_colon (PyStr.rstrip_colon s) = PyStr.rstrip_colon s.
Proof.
  intros s. unfold PyStr.rstrip_colon.
  now rewrite list_ascii_of_string_of_list_ascii, rstrip_by_idem.
Qed.

Lemma set_keys_ok : forall d k v,
  Forall key_ok (keys d) -> key_ok k -> Forall key_ok (keys (set k v d)).
Proof.
  intros d k v Hd Hk. rewrite keys_set.
  destruct (in_dec string_dec k (keys d)); [assumption|].
  apply Forall_app. split; [assumption|]. now constructor.
Qed.

Lemma truthy_colon_key : forall t,
  PyStr.truthy (PyStr.rstrip_colon t) = true ->
  key_ok (PyStr.rstrip_colon t).
Proof.
  intros t Ht. split.
  - intros E. rewrite E in Ht. discriminate.
  - apply rstrip_colon_idem.
Qed.

Section DetailKeys.
Context {W : Type} {P : Provider W}.

Lemma dt_dd_body_keys : forall dts dds i data (w : W) data' w',
  Forall key_ok (keys data) ->
  dt_dd_body dts dds i data w = (Ok data', w') ->
  Forall key_ok (keys data').
Proof.
  intros * Hd E. unfold dt_dd_body in E.
  apply bind_inv_ok in E as (t & w1 & _ & E).
  apply bind_inv_ok in E as (u & w2 & _ & E).
  destruct (PyStr.truthy _) eqn:Ht; inversion E; subst; auto.
  apply set_keys_ok; [assumption|now apply truthy_colon_key].
Qed.

Lemma two_col_body_keys : forall rows i data (w : W) data' w',
  Forall key_ok (keys data) ->
  two_col_body rows i data w = (Ok data', w') ->
  Forall key_ok (keys data').
Proof.
  intros * Hd E. unfold two_col_body in E.
  apply bind_inv_ok in E as (c & w1 & _ & E).
  destruct (2 <=? c)%nat; [|inversion E; subst; assumption].
  apply bind_inv_ok in E as (t & w2 & _ & E).
  apply bind_inv_ok in E as (u & w3 & _ & E).
  destruct (PyStr.truthy (PyStr.rstrip_colon (PyStr.strip t))) eqn:Ht;
    simpl in E.
  - destruct (PyStr.truthy _) in E; inversion E; subst; auto.
    apply set_keys_ok; [assumption|now apply truthy_colon_key].
  - inversion E; subst. assumption.
Qed.

Lemma label_body_keys : forall labels i data (w : W) data' w',
  Forall key_ok (keys data) ->
  label_body labels i data w = (Ok data', w') ->
  Forall key_ok (keys data').
Proof.
  intros * Hd E. unfold label_body in E.
  apply try_catch_inv_ok in E as [E|(e & w1 & _ & E)];
    [|inversion E; subst; assumption].
  apply bind_inv_ok in E as (t & w1 & _ & E).
  apply bind_inv_ok in E as (sib & w2 & _ & E).
  apply bind_inv_ok in E as (o & w3 & _ & E).
  cbv zeta in E.
  destruct (PyStr.truthy (PyStr.rstrip_colon (PyStr.strip t))) eqn:Ht;
    simpl in E.
  - destruct (PyStr.truthy _) in E; inversion E; subst; auto.
    apply set_keys_ok; [assumption|now apply truthy_colon_key].
  - inversion E; subst. assumption.
Qed.

Lemma for_each_keys :
  forall (A : Type) (body : A -> dict -> M W dict),
    (forall x d w d' w',
        Forall key_ok (keys d) -> body x d w = (Ok d', w') ->
        Forall key_ok (keys d')) ->
    forall xs d w d' w',
      Forall key_ok (keys d) -> for_each xs body d w = (Ok d', w') ->
      Forall key_ok (keys d').
Proof.
  intros A body Hbody xs d w d' w' Hd E.
  apply (for_each_inv _ _ (fun d0 => Forall key_ok (keys d0)) body Hbody
           xs d w d' w' Hd E).
Qed.

(** X20: every key of a record the Detail Collector returns is non-empty
    and does not end in a colon. *)
Theorem detail_keys_clean : forall (w : W) data w',
  _collect_detail_fields w = (Ok data, w') ->
  Forall (fun k => k <> "" /\ PyStr.rstrip_colon k = k) (keys data).
Proof.
  intros w data w' E. unfold _collect_detail_fields in E. cbv zeta in E.
  change (Forall key_ok (keys data)).
  apply bind_inv_ok in E as (go & w1 & _ & E).
  apply bind_inv_ok in E as (d1 & w2 & E1 & E).
  assert (H1 : Forall key_ok (keys d1)).
  { destruct go.
    - apply bind_inv_ok in E1 as (n & w1' & _ & E1).
      apply (for_each_keys _ _ (dt_dd_body_keys _ _) _ [] _ _ _
               (Forall_nil key_ok) E1).
    - inversion E1; subst. constructor. }
  apply bind_inv_ok in E as (d2 & w3 & E2 & E).
  assert (H2 : Forall key_ok (keys d2)).
  { destruct (negb (truthy d1)).
    - apply bind_inv_ok in E2 as (n & w2' & _ & E2).
      apply (for_each_keys _ _ (two_col_body_keys _) _ _ _ _ _ H1 E2).
    - inversion E2; subst. assumption. }
  apply bind_inv_ok in E as (d3 & w4 & E3 & E).
  inversion E; subst d3 w4.
  destruct (negb (truthy d2)).
  - apply bind_inv_ok in E3 as (n & w3' & _ & E3).
    apply (for_each_keys _ _ (label_body_keys _) _ _ _ _ _ H2 E3).
  - inversion E3; subst. assumption.
Qed.

End DetailKeys.

(** ** Instances on the simulated page *)

Lemma extracted_rows_have_text_witness :
  Forall (fun row =>
            has_text row = true
            /\ Forall (fun c => PyStr.strip c = c) row
            /\ exists c, In c row /\ c <> "")
         [["ACME LLC"; "Active"]].
Proof.
  apply (extracted_rows_have_text (P := Sim.provider []) Sim.acme_page
           [["ACME LLC"; "Active"]] Sim.acme_page).
  reflexivity.
Defined.

Lemma extracted_rows_one_convention_witness :
  [["ACME LLC"; "Active"]] = []
  \/ exists sel m w1,
       In sel (row_selectors)
       /\ for_each (range m)
            (table_row_body (P := Sim.provider []) (Css sel)) [] w1
          = (Ok [["ACME LLC"; "Active"]], Sim.acme_page).
Proof.
  apply (extracted_rows_one_convention (P := Sim.provider []) Sim.acme_page
           [["ACME LLC"; "Active"]] Sim.acme_page).
  reflexivity.
Defined.

Lemma extracted_headers_nonblank_witness :
  Forall (fun h => h <> "" /\ PyStr.strip h = h) ["Name"; "Status"].
Proof.
  apply (extracted_headers_nonblank (P := Sim.provider []) Sim.acme_page
           ["Name"; "Status"] Sim.acme_page).
  reflexivity.
Defined.

Lemma rows_recorded_in_order_witness :
  exists more,
    List.length more = Nat.min 2 (Z.to_nat (3 - 0))
    /\ Forall2 derived_from
         (firstn (List.length more)
                 [[("Name", "ACME LLC")]; [("Name", "ZETA INC")]])
         more.
Proof.
  destruct (rows_recorded_in_order
              (P := Sim.provider [Sim.CWaitNavigation]) "acme" 3
              [[("Name", "ACME LLC")]; [("Name", "ZETA INC")]] 0
              initial_session Sim.acme_page)
    as (f & st' & w' & more & E & _ & Hall & Hlen).
  exists more. split; [|exact Hall].
  apply Hlen. vm_compute in E. now inversion E.
Defined.

Lemma cap_reached_without_pagination_witness :
  exists f st' w2,
    rows_loop (P := Sim.provider []) "acme" 1
              (map (base_record ["Name"; "Status"])
                   [["ACME LLC"; "Active"]])
              0 initial_session Sim.acme_page
    = (Ok (f, st'), w2)
    /\ pages_loop (P := Sim.provider []) 1 "acme" 1 ["Name"; "Status"]
                  initial_session Sim.acme_page
       = (Ok (Some st'), w2)
    /\ (f = Continue -> fetched st' = 1%Z).
Proof.
  apply (cap_reached_without_pagination (P := Sim.provider []) "acme" 1
           ["Name"; "Status"] 0 initial_session Sim.acme_page
           [["ACME LLC"; "Active"]] Sim.acme_page).
  - reflexivity.
  - simpl. lia.
  - simpl. lia.
Defined.

Lemma session_terminates_witness :
  scrape_businesses (P := Sim.provider []) 5 "acme" 1 true Sim.acme_page
  = scrape_businesses (P := Sim.provider []) 2 "acme" 1 true Sim.acme_page.
Proof.
  apply (session_terminates (P := Sim.provider []) 5 "acme" 1 true
           Sim.acme_page).
  simpl. lia.
Defined.

Lemma close_failure_discards_records_witness :
  exists e,
    fst (scrape_businesses (P := Sim.provider [Sim.CClose]) 2 "acme" 1 true
                           Sim.acme_page)
    = Raise e.
Proof.
  apply (close_failure_discards_records (P := Sim.provider [Sim.CClose]))
    with (fuel := 2%nat) (term := "acme") (max_records := 1%Z)
         (headless := true) (w := Sim.acme_page)
         (w' := snd (scrape_businesses (P := Sim.provider [Sim.CClose]) 2
                       "acme" 1 true Sim.acme_page)).
  - intros w. eexists. eexists. reflexivity.
  - apply surjective_pairing.
Defined.

Lemma success_flag_needs_click_witness :
  fst (_open_row_detail (P := Sim.provider [Sim.CClick]) 0 Sim.acme_page)
  = Ok false
  /\ false = false.
Proof.
  split; [reflexivity|].
  apply (success_flag_needs_click (P := Sim.provider [Sim.CClick]))
    with (row_idx := 0%nat) (w := Sim.acme_page) (w' := Sim.acme_page).
  - intros l t w. eexists. eexists. reflexivity.
  - reflexivity.
Defined.


Lemma base_record_lookup_witness :
  get (base_record ["Name"; "Status"] ["ACME LLC"; "Active"]) "Status"
  = Some "Active"
  /\ get (base_record ["Name"; "Status"] ["a"; "b"; "c"]) "col_3"
     = Some "c".
Proof.
  split.
  - apply (base_record_lookup ["Name"; "Status"] ["ACME LLC"; "Active"] 1).
    + simpl. lia.
    + reflexivity.
    + repeat constructor; simpl; intuition discriminate.
  - apply (base_record_lookup ["Name"; "Status"] ["a"; "b"; "c"] 2).
    + simpl. lia.
    + simpl. discriminate.
Defined.

Lemma fieldnames_sorted_union_witness :
  sorted ["Status"; "Name"]
  = fieldnames [[("Status", "Active")]; [("Name", "ACME LLC")]].
Proof.
  apply (fieldnames_sorted_union
           [[("Status", "Active")]; [("Name", "ACME LLC")]]).
  - repeat constructor; simpl; intuition discriminate.
  - intros k. split.
    + intros [<-|[<-|[]]].
      * exists [("Status", "Active")]. simpl. auto.
      * exists [("Name", "ACME LLC")]. simpl. auto.
    + intros (row & [<-|[<-|[]]] & Hk); simpl in Hk; simpl; tauto.
Defined.


Lemma search_always_answers_witness :
  exists payload w',
    search (P := Sim.provider []) (H := SimHost.host true) 2 "acme" 1 true
           Sim.acme_page
    = (Ok (Some payload), w')
    /\ p_term payload = "acme"
    /\ p_limit payload = 1%Z
    /\ p_count payload = Z.of_nat (List.length (p_data payload)).
Proof.
  apply (search_always_answers (P := Sim.provider [])
           (H := SimHost.host true) 2 "acme" 1 true Sim.acme_page).
  simpl. lia.
Defined.

Lemma search_error_payload_witness :
  exists payload w',
    search (P := Sim.provider [Sim.CGoto]) (H := SimHost.host false)
           2 "acme" 1 true Sim.acme_page
    = (Ok (Some payload), w')
    /\ p_data payload = []
    /\ p_table_headers payload = []
    /\ p_count payload = 0%Z
    /\ p_error payload = Some "Timeout 30000ms exceeded.".
Proof.
  apply (search_error_payload (P := Sim.provider [Sim.CGoto])
           (H := SimHost.host false) 2 "acme" 1 true Sim.acme_page
           TimeoutError Sim.acme_page).
  reflexivity.
Defined.

Lemma search_success_payload_witness :
  exists payload w',
    search (P := Sim.provider []) (H := SimHost.host false) 2 "acme" 1 true
           Sim.acme_page
    = (Ok (Some payload), w')
    /\ p_data payload
       = [[("Name", "ACME LLC"); ("Status", "Active");
           ("Entity Number", "C1234567")]]
    /\ p_table_headers payload = ["Name"; "Status"]
    /\ p_error payload = None
    /\ p_count payload = 1%Z
    /\ ((0 <= 1)%Z -> (p_count payload <= 1)%Z).
Proof.
  apply (search_success_payload (P := Sim.provider [])
           (H := SimHost.host false) 2 "acme" 1 true Sim.acme_page
           [[("Name", "ACME LLC"); ("Status", "Active");
             ("Entity Number", "C1234567")]]
           ["Name"; "Status"]
           (snd (scrape_businesses (P := Sim.provider []) 2 "acme" 1 true
                                   Sim.acme_page))).
  reflexivity.
Defined.

Lemma search_csv_failure_witness :
  match fst (search (P := Sim.provider []) (H := SimHost.host true)
                    2 "acme" 1 true Sim.acme_page) with
  | Ok (Some payload) => p_csv_file payload = Some "."
  | _ => False
  end.
Proof.
  destruct (search (P := Sim.provider []) (H := SimHost.host true)
                   2 "acme" 1 true Sim.acme_page)
    as [[[payload|]|e] w'] eqn:E; simpl.
  - apply (search_csv_failure (P := Sim.provider [])
             (H := SimHost.host true))
      with (fuel := 2%nat) (term := "acme") (limit := 1%Z)
           (headless := true) (w := Sim.acme_page) (w' := w').
    + intros rows p w. eexists. eexists. reflexivity.
    + exact E.
  - vm_compute in E. discriminate E.
  - vm_compute in E. discriminate E.
Defined.

Lemma records_only_appended_witness :
  (exists more,
      [[("Name", "ACME LLC"); ("Status", "Active");
        ("Entity Number", "C1234567")]]
      = results initial_session ++ more)
  /\ (page_index initial_session <= 1)%Z.
Proof.
  apply (records_only_appended (P := Sim.provider []) "acme" 1
           ["Name"; "Status"] 2 initial_session Sim.acme_page
           (record_row [("Name", "ACME LLC"); ("Status", "Active");
                        ("Entity Number", "C1234567")] initial_session)
           (snd (pages_loop (P := Sim.provider []) 2 "acme" 1
                   ["Name"; "Status"] initial_session Sim.acme_page))).
  reflexivity.
Defined.

Lemma detail_keys_clean_witness :
  Forall (fun k => k <> "" /\ PyStr.rstrip_colon k = k)
         (keys [("Entity Number", "C1234567")]).
Proof.
  apply (detail_keys_clean (P := Sim.provider []) Sim.acme_page
           [("Entity Number", "C1234567")] Sim.acme_page).
  reflexivity.
Defined.

(** ** Pages reached by a session *)

Section ReachedPages.
Context {W : Type} {P : Provider W}.
Variables (term : string) (max_records : Z) (table_headers : list string).

Lemma page_reached_snoc : forall st0 w0 st w r rows_2d w1 st1 w2 w3,
  page_reached term max_records table_headers st0 w0 st w ->
  _extract_table_rows w = (Ok (r :: rows_2d), w1) ->
  rows_loop term max_records
            (map (base_record table_headers) (r :: rows_2d)) 0 st w1
  = (Ok (Continue, st1), w2) ->
  (fetched st1 >=? max_records)%Z = false ->
  _click_next w2 = (Ok true, w3) ->
  page_reached term max_records table_headers st0 w0 (next_page st1) w3.
Proof.
  intros * Hreach. induction Hreach; intros Er El Hcap En.
  - eapply reached_next; eauto. apply reached_here.
  - eapply reached_next; eauto.
Qed.

Lemma pages_loop_reached : forall st w st' w',
  page_reached term max_records table_headers st w st' w' ->
  forall fuel,
    (Z.to_nat (max_records - fetched st) < fuel)%nat ->
    pages_loop fuel term max_records table_headers st w
    = pages_loop fuel term max_records table_headers st' w'.
Proof.
  induction 1 as [|st w r rows_2d w1 st1 w2 w3 st' w' Er El Hcap En _ IH];
    intros fuel Hfuel; [reflexivity|].
  destruct fuel as [|fuel]; [lia|].
  assert (Hnext : (Z.to_nat (max_records - fetched (next_page st1))
                   < fuel)%nat).
  { destruct (rows_loop_records term max_records
                (map (base_record table_headers) (r :: rows_2d)) 0 st w1)
      as (f & st1' & w2' & more & E & _ & Hf & _ & _ & Hmore).
    rewrite El in E. inversion E; subst f st1' w2'.
    rewrite Z.geb_leb in Hcap. apply Z.leb_gt in Hcap.
    assert (fetched st < max_records)%Z by lia.
    assert (more <> []) by (apply Hmore; [assumption|discriminate]).
    destruct more as [|d more]; [congruence|].
    simpl List.length in Hf. simpl. lia. }
  rewrite <- (IH (S fuel)) by lia.
  rewrite (pages_loop_more_fuel term max_records table_headers fuel
             (next_page st1) w3 Hnext).
  rewrite pages_loop_unfold.
  rewrite (bind_ok _ _ _ _ _ _ _ Er), (bind_ok _ _ _ _ _ _ _ El), Hcap.
  rewrite (bind_ok _ _ _ _ _ _ _ En). cbn [negb].
  unfold sleep. now rewrite (bind_ok _ _ _ _ w3 tt w3 eq_refl).
Qed.

Lemma row_body_record : forall idx base st (w : W),
  exists f rec w',
    row_body term idx base st w = (Ok (f, record_row rec st), w')
    /\ row_record idx base w rec.
Proof.
  intros idx base st w. unfold row_body.
  destruct (open_detail idx w) as [[[]|e] w1] eqn:Eo.
  - rewrite (bind_ok _ _ _ _ _ _ _ (attempt_ok _ _ _ _ _ Eo)). cbn [negb].
    destruct (detail_record_total w1) as (details & w2 & Ed).
    rewrite (bind_ok _ _ _ _ _ _ _ Ed). cbv zeta.
    assert (Hd : row_record idx base w (unpack2 base details)).
    { right. now exists w1, details, w2. }
    destruct (attempt_cases _ return_to_list w2)
      as [(a' & w3 & _ & Hb)|(e & w3 & _ & Hb)];
      rewrite (bind_ok _ _ _ _ _ _ _ Hb).
    + now exists Continue, (unpack2 base details), w3.
    + match goal with
      | |- context [try_catch (bind ?m _) _] =>
          destruct (attempt_cases _ m w3)
            as [(a' & w4 & _ & Hs)|(e' & w4 & _ & Hs)];
            rewrite (bind_ok _ _ _ _ _ _ _ Hs)
      end.
      * now exists Continue, (unpack2 base details), w4.
      * now exists Return, (unpack2 base details), w4.
  - rewrite (bind_ok _ _ _ _ _ _ _ (attempt_raise _ _ _ _ _ Eo)). cbn [negb].
    exists Continue, base, w1. split; [reflexivity|].
    left. now exists e, w1.
Qed.

Lemma row_reached_at_snoc :
  forall pds idx0 st0 (w0 : W) idx base st w st1 w1,
    row_reached_at term max_records pds idx0 st0 w0 idx st w ->
    nth_error pds idx = Some base ->
    (fetched st >=? max_records)%Z = false ->
    row_body term idx base st w = (Ok (Continue, st1), w1) ->
    row_reached_at term max_records pds idx0 st0 w0 (S idx) st1 w1.
Proof.
  intros * Hreach. induction Hreach; intros Hn Hcap Eb.
  - eapply row_next; eauto. apply row_here.
  - eapply row_next; eauto.
Qed.

Lemma rows_loop_trace :
  forall pds start st0 (w0 : W) rest idx st w f st' w' more0,
    row_reached_at term max_records pds start st0 w0 idx st w ->
    (forall k, nth_error rest k = nth_error pds (idx + k)) ->
    rows_loop term max_records rest idx st w = (Ok (f, st'), w') ->
    results st = results st0 ++ more0 ->
    exists more,
      results st' = results st0 ++ more0 ++ more
      /\ Forall (fun rec =>
                   exists i base st_r w_r,
                     nth_error pds i = Some base
                     /\ row_reached_at term max_records pds start st0 w0
                                       i st_r w_r
                     /\ (fetched st_r >=? max_records)%Z = false
                     /\ row_record i base w_r rec)
                more.
Proof.
  intros pds start st0 w0.
  induction rest as [|base rest IH];
    intros idx st w f st' w' more0 Hreach Hnth E Hres.
  - simpl in E. inversion E; subst. exists []. rewrite app_nil_r.
    split; [assumption|constructor].
  - destruct (fetched st >=? max_records)%Z eqn:Hcap.
    + simpl in E. rewrite Hcap in E. inversion E; subst.
      exists []. rewrite app_nil_r. split; [assumption|constructor].
    + destruct (row_body_record idx base st w) as (f1 & rec & w1 & Eb & Hrec).
      rewrite (rows_loop_cons _ _ _ _ _ _ _ _ _ _ Hcap Eb) in E.
      assert (Hbase : nth_error pds idx = Some base).
      { rewrite <- (Nat.add_0_r idx), <- Hnth. reflexivity. }
      assert (Hhead : exists i base0 st_r w_r,
                 nth_error pds i = Some base0
                 /\ row_reached_at term max_records pds start st0 w0
                                   i st_r w_r
                 /\ (fetched st_r >=? max_records)%Z = false
                 /\ row_record i base0 w_r rec).
      { now exists idx, base, st, w. }
      destruct f1.
      * destruct (IH (S idx) (record_row rec st) w1 f st' w'
                     (more0 ++ [rec])) as (more & Hres' & Hall).
        -- eapply row_reached_at_snoc; eauto.
        -- intros k. replace (S idx + k)%nat with (idx + S k)%nat by lia.
           apply (Hnth (S k)).
        -- exact E.
        -- simpl. now rewrite Hres, <- app_assoc.
        -- exists (rec :: more). split.
           ++ rewrite Hres'. now rewrite <- !app_assoc.
           ++ now constructor.
      * inversion E; subst. exists [rec]. split.
        -- simpl. now rewrite Hres, <- app_assoc.
        -- now repeat constructor.
Qed.

Lemma pages_loop_trace : forall st0 (w0 : W) fuel st w st' w' more0,
  page_reached term max_records table_headers st0 w0 st w ->
  pages_loop fuel term max_records table_headers st w
  = (Ok (Some st'), w') ->
  results st = results st0 ++ more0 ->
  Forall (record_of_session term max_records table_headers st0 w0) more0 ->
  exists more,
    results st' = results st0 ++ more
    /\ Forall (record_of_session term max_records table_headers st0 w0)
              more.
Proof.
  intros st0 w0.
  induction fuel as [|fuel IH];
    intros st w st' w' more0 Hreach E Hres0 Hall0; [discriminate|].
  rewrite pages_loop_unfold in E.
  apply bind_inv_ok in E as ([|r rows_2d] & w1 & Erows & E).
  { inversion E; subst. now exists more0. }
  apply bind_inv_ok in E as ([f st1] & w2 & E1 & E).
  destruct (rows_loop_trace
              (map (base_record table_headers) (r :: rows_2d)) 0 st w1
              (map (base_record table_headers) (r :: rows_2d)) 0 st w1
              f st1 w2 [] (row_here _ _ _ _ _ _) (fun k => eq_refl) E1
              (eq_sym (app_nil_r _)))
    as (more & Hres & Hall).
  simpl app in Hres.
  assert (Hhere : results st1 = results st0 ++ (more0 ++ more)
                  /\ Forall (record_of_session term max_records
                                table_headers st0 w0) (more0 ++ more)).
  { split; [now rewrite Hres, Hres0, app_assoc|].
    apply Forall_app. split; [assumption|].
    eapply Forall_impl; [|exact Hall].
    intros rec (i & base & st_r & w_r & Hn & Hrr & Hcap & Hrec).
    rewrite nth_error_map in Hn.
    destruct (nth_error (r :: rows_2d) i) as [row|] eqn:Hrow;
      [|discriminate].
    simpl in Hn. inversion Hn; subst base.
    now exists st, w, (r :: rows_2d), w1, i, row, st_r, w_r. }
  destruct Hhere as (Hres1 & Hall1).
  destruct f; [|inversion E; subst; now exists (more0 ++ more)].
  destruct (fetched st1 >=? max_records)%Z eqn:Hcap;
    [inversion E; subst; now exists (more0 ++ more)|].
  apply bind_inv_ok in E as ([|] & w3 & En & E); cbn [negb] in E;
    [|inversion E; subst; now exists (more0 ++ more)].
  apply bind_inv_ok in E as (u & w4 & Es & E).
  unfold sleep, ret in Es. inversion Es; subst w4.
  eapply IH; [|exact E|exact Hres1|exact Hall1].
  eapply page_reached_snoc; eauto.
Qed.

End ReachedPages.

Section SessionSetup.
Context {W : Type} {P : Provider W}.

Lemma scrape_body_ok :
  forall fuel term max_records headless (w0 w1 : W) hdrs w7 r w8 wc wd,
    launch_context headless w0 = (Ok tt, w1) ->
    session_setup term w1 = (Ok hdrs, w7) ->
    pages_loop fuel term max_records hdrs initial_session w7 = (Ok r, w8) ->
    close_context w8 = (Ok tt, wc) ->
    close_browser wc = (Ok tt, wd) ->
    scrape_businesses fuel term max_records headless w0
    = (Ok (option_map (fun st => (results st, hdrs)) r), wd).
Proof.
  intros * El Hs Ep Ecc Ecb.
  unfold session_setup in Hs.
  apply bind_inv_ok in Hs as ([] & w2 & E1 & Hs).
  apply bind_inv_ok in Hs as ([] & w3 & E2 & Hs).
  apply bind_inv_ok in Hs as ([] & w4 & E3 & Hs).
  apply bind_inv_ok in Hs as ([] & w5 & E4 & Hs).
  apply bind_inv_ok in Hs as ([] & w6 & E5 & Hs).
  unfold scrape_businesses.
  rewrite (bind_ok _ _ _ _ _ _ _ El).
  apply try_finally_ok with (w1 := w8).
  - rewrite (bind_ok _ _ _ _ _ _ _ E1), (bind_ok _ _ _ _ _ _ _ E2).
    rewrite (bind_ok _ _ _ _ _ _ _ E3), (bind_ok _ _ _ _ _ _ _ E4).
    rewrite (bind_ok _ _ _ _ _ _ _ E5), (bind_ok _ _ _ _ _ _ _ Hs).
    now rewrite (bind_ok _ _ _ _ _ _ _ Ep).
  - now rewrite (bind_ok _ _ _ _ _ _ _ Ecc).
Qed.

Lemma scrape_inv_setup :
  forall fuel term max_records headless (w0 : W) recs hdrs w',
    scrape_businesses fuel term max_records headless w0
    = (Ok (Some (recs, hdrs)), w') ->
    exists w1 w7 st w8,
      launch_context headless w0 = (Ok tt, w1)
      /\ session_setup term w1 = (Ok hdrs, w7)
      /\ pages_loop fuel term max_records hdrs initial_session w7
         = (Ok (Some st), w8)
      /\ results st = recs.
Proof.
  intros * E. unfold scrape_businesses in E.
  apply bind_inv_ok in E as ([] & w1 & El & E).
  apply try_finally_inv_ok in E as (w8 & E).
  apply bind_inv_ok in E as ([] & w2 & E1 & E).
  apply bind_inv_ok in E as ([] & w3 & E2 & E).
  apply bind_inv_ok in E as ([] & w4 & E3 & E).
  apply bind_inv_ok in E as ([] & w5 & E4 & E).
  apply bind_inv_ok in E as ([] & w6 & E5 & E).
  apply bind_inv_ok in E as (table_headers & w7 & Eh & E).
  apply bind_inv_ok in E as (r & w9 & Ep & E).
  destruct r as [st|]; [|discriminate].
  inversion E; subst.
  exists w1, w7, st, w8. repeat split; auto.
  unfold session_setup.
  rewrite (bind_ok _ _ _ _ _ _ _ E1), (bind_ok _ _ _ _ _ _ _ E2).
  rewrite (bind_ok _ _ _ _ _ _ _ E3), (bind_ok _ _ _ _ _ _ _ E4).
  now rewrite (bind_ok _ _ _ _ _ _ _ E5).
Qed.

End SessionSetup.

(** C9, the claim as stated fails: on a page where the extractor yields
    no row, the session still ends in an exception when closing the
    browser context fails. *)
Lemma empty_page_session_raises_on_close :
  fst (_extract_table_rows (P := Sim.provider [Sim.CClose]) Sim.blank_page)
  = Ok []
  /\ fst (scrape_businesses (P := Sim.provider [Sim.CClose]) 4 "acme" 3 true
                            Sim.blank_page)
     = Raise TimeoutError.
Proof. split; reflexivity. Qed.

(** C9 (amended): when the extractor yields no row on the current page,
    the page loop ends normally with the session as it stood before that
    page; and when that page is one the session reached and closing the
    context and the browser succeeds, [scrape_businesses] returns exactly
    the records accumulated before that page, with the headers. *)
Theorem empty_page_ends_session :
  forall (W : Type) (P : Provider W) fuel term max_records table_headers
         st (w w' : W),
    _extract_table_rows w = (Ok [], w') ->
    pages_loop (S fuel) term max_records table_headers st w
    = (Ok (Some st), w')
    /\ forall headless w0 w1 w7 wc wd,
         (Z.to_nat max_records <= fuel)%nat ->
         launch_context headless w0 = (Ok tt, w1) ->
         session_setup term w1 = (Ok table_headers, w7) ->
         page_reached term max_records table_headers initial_session w7
                      st w ->
         close_context w' = (Ok tt, wc) ->
         close_browser wc = (Ok tt, wd) ->
         scrape_businesses (S fuel) term max_records headless w0
         = (Ok (Some (results st, table_headers)), wd).
Proof.
  intros W P fuel term max_records table_headers st w w' Erows.
  assert (Hloop : pages_loop (S fuel) term max_records table_headers st w
                  = (Ok (Some st), w')).
  { rewrite pages_loop_unfold. now rewrite (bind_ok _ _ _ _ _ _ _ Erows). }
  split; [exact Hloop|].
  intros headless w0 w1 w7 wc wd Hfuel El Hs Hreach Ecc Ecb.
  apply (scrape_body_ok (S fuel) term max_records headless w0 w1
           table_headers w7 (Some st) w' wc wd El Hs); auto.
  rewrite (pages_loop_reached term max_records table_headers _ _ _ _ Hreach)
    by (simpl; lia).
  exact Hloop.
Qed.

Lemma empty_page_ends_session_witness :
  scrape_businesses (P := SimPages.provider []) 4 "acme" 3 true
                    SimPages.two_pages
  = (Ok (Some ([[("Name", "ACME LLC"); ("Status", "Active");
                 ("Entity Number", "C1234567")]],
               ["Name"; "Status"])),
     snd (scrape_businesses (P := SimPages.provider []) 4 "acme" 3 true
                            SimPages.two_pages)).
Proof.
  pose (w7 := snd (session_setup (P := SimPages.provider []) "acme"
                                 SimPages.two_pages)).
  pose (st := record_row [("Name", "ACME LLC"); ("Status", "Active");
                          ("Entity Number", "C1234567")] initial_session).
  pose (w := snd (_click_next (P := SimPages.provider [])
                (snd (rows_loop (P := SimPages.provider []) "acme" 3
                        (map (base_record ["Name"; "Status"])
                             [["ACME LLC"; "Active"]])
                        0 initial_session w7)))).
  apply (proj2 (empty_page_ends_session SimPages.world
                  (SimPages.provider []) 3 "acme" 3 ["Name"; "Status"]
                  (next_page st) w w eq_refl)
           true SimPages.two_pages SimPages.two_pages w7 w w).
  - simpl. lia.
  - reflexivity.
  - reflexivity.
  - apply (reached_next "acme" 3 ["Name"; "Status"] initial_session w7
             ["ACME LLC"; "Active"] [] w7 st
             (snd (rows_loop (P := SimPages.provider []) "acme" 3
                     (map (base_record ["Name"; "Status"])
                          [["ACME LLC"; "Active"]])
                     0 initial_session w7))
             w (next_page st) w).
    + reflexivity.
    + reflexivity.
    + reflexivity.
    + reflexivity.
    + apply reached_here.
  - reflexivity.
  - reflexivity.
Defined.

(** X19: every record a session returns was appended by this very
    session: at a page its page loop reached, the extractor returned some
    rows; the row loop over their base records came, below the cap, to
    the row at some index; and the record is what the loop body appends
    for that row there, namely the row's base record under the session's
    headers when opening the detail view fails, and else that base record
    overlaid with what the detail step returns in the world the opening
    leaves.  The headers are non-empty, trimmed labels. *)
Theorem session_records_from_rows :
  forall (W : Type) (P : Provider W) fuel term max_records headless
         (w0 : W) recs hdrs w',
    scrape_businesses fuel term max_records headless w0
    = (Ok (Some (recs, hdrs)), w') ->
    exists w1 w7,
      launch_context headless w0 = (Ok tt, w1)
      /\ session_setup term w1 = (Ok hdrs, w7)
      /\ Forall (record_of_session term max_records hdrs initial_session w7)
                recs
      /\ Forall label_ok hdrs.
Proof.
  intros W P fuel term max_records headless w0 recs hdrs w' E.
  apply scrape_inv_setup in E as (w1 & w7 & st & w8 & El & Hs & Ep & <-).
  exists w1, w7. split; [assumption|]. split; [assumption|]. split.
  - destruct (pages_loop_trace term max_records hdrs initial_session
                w7 fuel initial_session w7 st w8 []
                (reached_here _ _ _ _ _) Ep eq_refl (Forall_nil _))
      as (more & Hres & Hall).
    simpl in Hres. now rewrite Hres.
  - unfold session_setup in Hs.
    apply bind_inv_ok in Hs as ([] & w2 & _ & Hs).
    apply bind_inv_ok in Hs as ([] & w3 & _ & Hs).
    apply bind_inv_ok in Hs as ([] & w4 & _ & Hs).
    apply bind_inv_ok in Hs as ([] & w5 & _ & Hs).
    apply bind_inv_ok in Hs as ([] & w6 & _ & Hs).
    destruct (headers_phase_labels 3 w6) as (hs & w9 & Eh' & Hok).
    rewrite Hs in Eh'. inversion Eh'; subst. assumption.
Qed.

Lemma session_records_from_rows_witness :
  exists w1 w7,
    launch_context (Provider := SimPages.provider []) true SimPages.two_pages
    = (Ok tt, w1)
    /\ session_setup (P := SimPages.provider []) "acme" w1
       = (Ok ["Name"; "Status"], w7)
    /\ Forall (record_of_session (P := SimPages.provider []) "acme" 3
                 ["Name"; "Status"] initial_session w7)
              [[("Name", "ACME LLC"); ("Status", "Active");
                ("Entity Number", "C1234567")]]
    /\ Forall label_ok ["Name"; "Status"].
Proof.
  apply (session_records_from_rows SimPages.world (SimPages.provider [])
           4 "acme" 3 true SimPages.two_pages
           [[("Name", "ACME LLC"); ("Status", "Active");
             ("Entity Number", "C1234567")]]
           ["Name"; "Status"]
           (snd (scrape_businesses (P := SimPages.provider []) 4 "acme" 3
                                   true SimPages.two_pages))).
  reflexivity.
Defined.
